(** * Sales listing service: query validation, filter compilation, paging

    A shallow embedding of the backend of the sales listing service
    ([utils/validation.ts], [utils/query.ts], [services/sales.service.ts])
    together with the properties its specification states about it.

    Conventions of the embedding:
    - a JavaScript string is a [string]; white space is the ASCII part of
      the ECMAScript [WhiteSpace]/[LineTerminator] classes;
    - the raw query object is a finite map from keys to [QueryValue]s;
    - numbers produced by [parseInt] are exact integers ([Z]); numbers
      produced by [parseFloat] are exact rationals or an infinity
      ([number]); the rounding to binary64 is not represented;
    - a [Date] is its time value in milliseconds since the epoch, or
      [None] for an invalid date;
    - code that can throw lives in the [result] monad. *)

From Stdlib Require Import ZArith QArith Qround Lia Bool Ascii String List.
From Stdlib Require Import Sorted Permutation.
From Stdlib Require Import DecimalString DecimalPos DecimalZ.
From stdpp Require Import base gmap strings.

Import ListNotations.
Local Open Scope string_scope.
Local Open Scope Z_scope.

(** ** Exceptions *)

Inductive result (A : Type) : Type :=
| Ok (a : A)
| Throw (message : string).
Arguments Ok {A} a.
Arguments Throw {A} message.

(** [result] is a monad in stdpp's sense, so that [x ← m; k] sequences
    statements and stops at the first exception. *)
#[global] Instance result_ret : MRet result := fun A a => Ok a.
#[global] Instance result_bind : MBind result := fun A B k m =>
  match m with
  | Ok a => k a
  | Throw e => Throw e
  end.

(** ** JavaScript strings *)

Module JS.

(** [WhiteSpace] and [LineTerminator] code units below 128. *)
Definition is_ws (c : ascii) : bool :=
  match c with
  | "009" | "010" | "011" | "012" | "013" | " " => true
  | _ => false
  end%char.

(** [Boolean(s)] for a string: only the empty string is falsy. *)
Definition truthy_string (s : string) : bool :=
  match s with
  | EmptyString => false
  | String _ _ => true
  end.

Fixpoint trimStart (s : string) : string :=
  match s with
  | EmptyString => EmptyString
  | String c s' => if is_ws c then trimStart s' else s
  end.

Fixpoint trimEnd (s : string) : string :=
  match s with
  | EmptyString => EmptyString
  | String c s' =>
      match trimEnd s' with
      | EmptyString => if is_ws c then EmptyString else String c EmptyString
      | t => String c t
      end
  end.

(** [String.prototype.trim] *)
Definition trim (s : string) : string := trimEnd (trimStart s).

(** [String.prototype.split] with a one-character separator. *)
Fixpoint split (sep : ascii) (s : string) : list string :=
  match s with
  | EmptyString => [EmptyString]
  | String c s' =>
      if Ascii.eqb c sep then EmptyString :: split sep s'
      else match split sep s' with
           | h :: t => String c h :: t
           | [] => [String c EmptyString]
           end
  end.

(** [Array.prototype.join] with separator [","], which is also
    [Array.prototype.toString]. *)
Fixpoint join (l : list string) : string :=
  match l with
  | [] => EmptyString
  | [x] => x
  | x :: rest => x ++ "," ++ join rest
  end.

End JS.

(** ** JavaScript numbers and the global parsers *)

Inductive number : Type :=
| NaN
| Fin (q : Q)
| Infinity (negative : bool).

Definition isNaN (x : number) : bool :=
  match x with NaN => true | _ => false end.

(** [x <= y] on numbers; every comparison with [NaN] is false. *)
Definition num_leb (x y : number) : bool :=
  match x, y with
  | NaN, _ | _, NaN => false
  | Infinity true, _ => true
  | _, Infinity false => true
  | Infinity false, _ => false
  | _, Infinity true => false
  | Fin p, Fin q => Qle_bool p q
  end.

(** The value of a decimal digit, from its code unit (48 to 57). *)
Definition digit_of (c : ascii) : option Z :=
  let code := Z.of_nat (nat_of_ascii c) in
  if (48 <=? code) && (code <=? 57) then Some (code - 48) else None.

(** The longest run of decimal digits at the front of [s], and the rest. *)
Fixpoint take_digits (s : string) : list Z * string :=
  match s with
  | EmptyString => ([], EmptyString)
  | String c s' =>
      match digit_of c with
      | Some d => let '(ds, rest) := take_digits s' in (d :: ds, rest)
      | None => ([], s)
      end
  end.

Definition decimal_value (ds : list Z) : Z :=
  fold_left (fun acc d => 10 * acc + d) ds 0.

(** An optional sign at the front of [s]: [true] for a minus sign. *)
Definition take_sign (s : string) : bool * string :=
  match s with
  | String "-"%char s' => (true, s')
  | String "+"%char s' => (false, s')
  | _ => (false, s)
  end.

(** [parseInt(input, 10)]; [None] is [NaN]. *)
Definition parseInt (input : string) : option Z :=
  let '(negative, str) := take_sign (JS.trimStart input) in
  match take_digits str with
  | ([], _) => None
  | (ds, _) => Some (if negative then - decimal_value ds else decimal_value ds)
  end.

(** The [ExponentPart] at the front of [s], 0 when there is none. *)
Definition take_exponent (s : string) : Z :=
  match s with
  | String c s' =>
      if Ascii.eqb c "e" || Ascii.eqb c "E" then
        let '(negative, r) := take_sign s' in
        match take_digits r with
        | ([], _) => 0
        | (ds, _) => if negative then - decimal_value ds else decimal_value ds
        end
      else 0
  | EmptyString => 0
  end.

(** [parseFloat(input)]: the longest prefix that is a [StrDecimalLiteral]. *)
Definition parseFloat (input : string) : number :=
  let '(negative, str) := take_sign (JS.trimStart input) in
  if String.prefix "Infinity" str then Infinity negative
  else
    let '(ip, r1) := take_digits str in
    let '(fp, r2) :=
      match r1 with
      | String "."%char r => take_digits r
      | _ => ([], r1)
      end in
    match (ip ++ fp)%list with
    | [] => NaN
    | ds =>
        let scale := take_exponent r2 - Z.of_nat (List.length fp) in
        let q := (inject_Z (decimal_value ds) * Qpower 10 scale)%Q in
        Fin (if negative then Qopp q else q)
    end.

(** ** Dates

    Time values are milliseconds since 1970-01-01T00:00:00Z. *)

Definition msPerDay : Z := 86400000.

Definition Day (t : Z) : Z := t / msPerDay.

Definition MakeTime (h m s ms : Z) : Z :=
  h * 3600000 + m * 60000 + s * 1000 + ms.

Definition MakeDate (day time : Z) : Z := day * msPerDay + time.

Definition TimeClip (t : Z) : option Z :=
  if Z.abs t <=? 8640000000000000 then Some t else None.

Definition is_leap (y : Z) : bool :=
  (y mod 4 =? 0) && (negb (y mod 100 =? 0) || (y mod 400 =? 0)).

Definition days_in_month (y m : Z) : Z :=
  if m =? 2 then (if is_leap y then 29 else 28)
  else if (m =? 4) || (m =? 6) || (m =? 9) || (m =? 11) then 30
  else 31.

(** Days from the epoch to the civil date [y]-[m]-[d]. *)
Definition days_from_civil (y m d : Z) : Z :=
  let y' := if m <=? 2 then y - 1 else y in
  let era := y' / 400 in
  let yoe := y' - era * 400 in
  let doy := (153 * (if 2 <? m then m - 3 else m + 9) + 2) / 5 + d - 1 in
  let doe := yoe * 365 + yoe / 4 - yoe / 100 + doy in
  era * 146097 + doe - 719468.

(** Exactly [n] digits at the front of [s]. *)
Fixpoint fixed_digits (n : nat) (s : string) (acc : Z) : option (Z * string) :=
  match n with
  | O => Some (acc, s)
  | S n' =>
      match s with
      | String c s' =>
          match digit_of c with
          | Some d => fixed_digits n' s' (10 * acc + d)
          | None => None
          end
      | EmptyString => None
      end
  end.

Definition expect (c : ascii) (s : string) : option string :=
  match s with
  | String c' s' => if Ascii.eqb c c' then Some s' else None
  | EmptyString => None
  end.

(** The time-of-day part [THH:mm:ss.sssZ] of the interchange format. *)
Definition iso_time (s : string) : option Z :=
  s ← expect "T" s;
  '(h, s) ← fixed_digits 2 s 0; s ← expect ":" s;
  '(mi, s) ← fixed_digits 2 s 0; s ← expect ":" s;
  '(sec, s) ← fixed_digits 2 s 0; s ← expect "." s;
  '(ms, s) ← fixed_digits 3 s 0; s ← expect "Z" s;
  if JS.truthy_string s then None
  else if (h <? 24) && (mi <? 60) && (sec <? 60)
       then Some (MakeTime h mi sec ms) else None.

(** A [Date.parse] that accepts the two forms of the ECMAScript date-time
    interchange format that carry no local-time reading: [YYYY-MM-DD]
    (midnight UTC) and [YYYY-MM-DDTHH:mm:ss.sssZ]. What an engine does with
    any other string is its own business; this one rejects it. *)
Definition Date_parse_iso (s : string) : option Z :=
  '(y, s) ← fixed_digits 4 s 0; s ← expect "-" s;
  '(m, s) ← fixed_digits 2 s 0; s ← expect "-" s;
  '(d, s) ← fixed_digits 2 s 0;
  if (1 <=? m) && (m <=? 12) && (1 <=? d) && (d <=? days_in_month y m) then
    time ← (if JS.truthy_string s then iso_time s else Some 0);
    Some (MakeDate (days_from_civil y m d) time)
  else None.

(** A host whose local time is UTC, and one five and a half hours ahead
    of it. *)
Definition LocalTZA_utc (t : Z) (isUTC : bool) : Z := 0.

Definition LocalTZA_ist (t : Z) (isUTC : bool) : Z := 19800000.

(** ** Raw query values

    The query-string parser hands over, for each key, either one string
    or (for a repeated key) an array of strings. *)

Inductive QueryValue : Type :=
| QStr (s : string)
| QArr (items : list string).

Definition Array_isArray (v : QueryValue) : bool :=
  match v with QArr _ => true | QStr _ => false end.

Definition typeof_string (v : QueryValue) : bool :=
  match v with QStr _ => true | QArr _ => false end.

(** [Boolean(v)]: an array is an object and so always truthy. *)
Definition truthy (v : QueryValue) : bool :=
  match v with
  | QStr s => JS.truthy_string s
  | QArr _ => true
  end.

(** [ToString(v)], applied by [parseInt], [parseFloat] and [new Date]. *)
Definition ToString (v : QueryValue) : string :=
  match v with
  | QStr s => s
  | QArr items => JS.join items
  end.

(** Method calls on a raw value: calling a string method on an array (or
    an array method on a string) is a [TypeError]. *)
Definition call_trim (v : QueryValue) : result string :=
  match v with
  | QStr s => Ok (JS.trim s)
  | QArr _ => Throw "TypeError: trim is not a function"
  end.

Definition call_split (v : QueryValue) (sep : ascii) : result (list string) :=
  match v with
  | QStr s => Ok (JS.split sep s)
  | QArr _ => Throw "TypeError: split is not a function"
  end.

Definition call_filter (v : QueryValue) (keep : string -> bool)
  : result (list string) :=
  match v with
  | QArr items => Ok (List.filter keep items)
  | QStr _ => Throw "TypeError: filter is not a function"
  end.

(** ** validation.ts: parseArrayParam *)

Definition parseArrayParam (param : QueryValue) : result (list string) :=
  if Array_isArray param then
    call_filter param (fun item => JS.truthy_string (JS.trim item))
  else if typeof_string param then
    parts ← call_split param ","%char;
    Ok (List.filter JS.truthy_string (List.map JS.trim parts))
  else Ok [].


(** ** types/sales.type.ts *)

Record SalesFilters : Type := {
  customerRegion : option (list string);
  gender : option (list string);
  ageMin : option Z;
  ageMax : option Z;
  productCategory : option (list string);
  tags : option (list string);
  paymentMethod : option (list string);
  orderStatus : option (list string);
  deliveryType : option (list string);
  brand : option (list string);
  (** declared [string]; at run time the raw query value is stored *)
  dateFrom : option QueryValue;
  dateTo : option QueryValue;
  priceMin : option number;
  priceMax : option number;
}.

Record SalesQueryParams : Type := {
  page : option Z;
  pageSize : option Z;
  search : option string;
  sort : option string;
  filters : option SalesFilters;
}.

(** The stored record (the Prisma model), with the columns the query path
    reads. *)
Module Sales.
Record t : Type := {
  id : string;
  date : Z;
  customerName : string;
  phoneNumber : string;
  gender : string;
  age : Z;
  customerRegion : string;
  brand : string;
  productCategory : string;
  tags : list string;
  quantity : Z;
  finalAmount : Q;
  paymentMethod : string;
  orderStatus : string;
  deliveryType : string;
}.
End Sales.

(** String-valued columns a condition can name. *)
Module Field.
Inductive t : Type :=
| customerName | phoneNumber | customerRegion | gender | productCategory
| paymentMethod | orderStatus | deliveryType | brand.

Definition get (f : t) (r : Sales.t) : string :=
  match f with
  | customerName => Sales.customerName r
  | phoneNumber => Sales.phoneNumber r
  | customerRegion => Sales.customerRegion r
  | gender => Sales.gender r
  | productCategory => Sales.productCategory r
  | paymentMethod => Sales.paymentMethod r
  | orderStatus => Sales.orderStatus r
  | deliveryType => Sales.deliveryType r
  | brand => Sales.brand r
  end.
End Field.

(** A [Date] object: its time value, [None] when invalid. *)
Definition JSDate : Type := option Z.

(** The fragment of [Prisma.SalesWhereInput] that [buildWhereClause]
    produces. *)
#[warnings="-register-all"]
Inductive SalesWhereInput : Type :=
| W_any                                             (* {} *)
| W_contains (f : Field.t) (needle : string)        (* {f: {contains, mode: 'insensitive'}} *)
| W_in (f : Field.t) (values : list string)         (* {f: {in}} *)
| W_hasSome (values : list string)                  (* {tags: {hasSome}} *)
| W_age (gte lte : option Z)                        (* {age: {gte?, lte?}} *)
| W_date (gte lte : option JSDate)                  (* {date: {gte?, lte?}} *)
| W_finalAmount (gte lte : option number)           (* {finalAmount: {gte?, lte?}} *)
| W_OR (branches : list SalesWhereInput)
| W_AND (conditions : list SalesWhereInput).

Inductive SortField : Type := by_date | by_quantity | by_customerName.
Inductive SortOrder : Type := asc | desc.

(** The response row under the display-name contract; ['Date'] is the
    calendar day of the stored instant. *)
Record SalesRow : Type := {
  Transaction_ID : string;
  Date_ : Z;
  Customer_Name : string;
  Phone_Number : string;
  Gender : string;
  Age : Z;
  Customer_Region : string;
  Brand : string;
  Product_Category : string;
  Tags : list string;
  Quantity : Z;
  Final_Amount : Q;
  Payment_Method : string;
  Order_Status : string;
  Delivery_Type : string;
}.

Record SalesResponse : Type := {
  data : list SalesRow;
  resp_page : Z;
  resp_pageSize : Z;
  totalPages : number;
  totalRecords : Z;
}.

Record FilterOptions : Type := {
  customerRegions : list string;
  genders : list string;
  productCategories : list string;
  paymentMethods : list string;
  orderStatuses : list string;
  deliveryTypes : list string;
  brands : list string;
  opt_tags : list string;
}.

(** ** The storage layer

    What the query engine does with a condition, an order and a window.
    This is the reading of the Prisma operators used by the code. *)

Definition lower_char (c : ascii) : ascii :=
  let n := nat_of_ascii c in
  if ((65 <=? n) && (n <=? 90))%nat then ascii_of_nat (n + 32) else c.

Fixpoint lower (s : string) : string :=
  match s with
  | EmptyString => EmptyString
  | String c s' => String (lower_char c) (lower s')
  end.

(** [needle] occurs in [hay]. *)
Fixpoint includes (needle hay : string) : bool :=
  String.prefix needle hay ||
  match hay with
  | EmptyString => false
  | String _ hay' => includes needle hay'
  end.

Definition contains_insensitive (hay needle : string) : bool :=
  includes (lower needle) (lower hay).

Definition mem (x : string) (l : list string) : bool :=
  existsb (String.eqb x) l.

Definition opt_bound {A} (test : A -> bool) (bound : option A) : bool :=
  match bound with
  | Some b => test b
  | None => true
  end.

Definition date_geb (t : Z) (d : JSDate) : bool :=
  match d with Some b => b <=? t | None => false end.

Definition date_leb (t : Z) (d : JSDate) : bool :=
  match d with Some b => t <=? b | None => false end.

Fixpoint matches (w : SalesWhereInput) (r : Sales.t) : bool :=
  match w with
  | W_any => true
  | W_contains f needle => contains_insensitive (Field.get f r) needle
  | W_in f values => mem (Field.get f r) values
  | W_hasSome values => existsb (fun t => mem t values) (Sales.tags r)
  | W_age gte lte =>
      opt_bound (fun b => b <=? Sales.age r) gte &&
      opt_bound (fun b => Sales.age r <=? b) lte
  | W_date gte lte =>
      opt_bound (date_geb (Sales.date r)) gte &&
      opt_bound (date_leb (Sales.date r)) lte
  | W_finalAmount gte lte =>
      opt_bound (fun b => num_leb b (Fin (Sales.finalAmount r))) gte &&
      opt_bound (fun b => num_leb (Fin (Sales.finalAmount r)) b) lte
  | W_OR branches => existsb (fun b => matches b r) branches
  | W_AND conditions => forallb (fun c => matches c r) conditions
  end.

Section InsertionSort.
Context {A : Type} (leb : A -> A -> bool).

Fixpoint insert_sorted (x : A) (l : list A) : list A :=
  match l with
  | [] => [x]
  | y :: l' => if leb x y then x :: l else y :: insert_sorted x l'
  end.

Fixpoint sort_by (l : list A) : list A :=
  match l with
  | [] => []
  | x :: l' => insert_sorted x (sort_by l')
  end.
End InsertionSort.

Definition order_leb (orderBy : SortField * SortOrder) (a b : Sales.t) : bool :=
  let up :=
    match fst orderBy with
    | by_date => Sales.date a <=? Sales.date b
    | by_quantity => Sales.quantity a <=? Sales.quantity b
    | by_customerName => String.leb (Sales.customerName a) (Sales.customerName b)
    end in
  let down :=
    match fst orderBy with
    | by_date => Sales.date b <=? Sales.date a
    | by_quantity => Sales.quantity b <=? Sales.quantity a
    | by_customerName => String.leb (Sales.customerName b) (Sales.customerName a)
    end in
  match snd orderBy with asc => up | desc => down end.

(** The store answers, or the call is rejected. *)
Inductive Store : Type :=
| Up (rows : list Sales.t)
| Down.

Definition findMany (db : Store) (where_ : SalesWhereInput)
    (orderBy : SortField * SortOrder) (skip take : Z) : result (list Sales.t) :=
  match db with
  | Up rows =>
      Ok (firstn (Z.to_nat take)
            (skipn (Z.to_nat skip)
               (sort_by (order_leb orderBy)
                  (List.filter (matches where_) rows))))
  | Down => Throw "storage failure"
  end.

Definition count (db : Store) (where_ : SalesWhereInput) : result Z :=
  match db with
  | Up rows => Ok (Z.of_nat (List.length (List.filter (matches where_) rows)))
  | Down => Throw "storage failure"
  end.

Definition select_all (db : Store) : result (list Sales.t) :=
  match db with
  | Up rows => Ok rows
  | Down => Throw "storage failure"
  end.

(** [a / b] on integers, as a number. *)
Definition num_div (a b : Z) : number :=
  if b =? 0 then (if a =? 0 then NaN else Infinity (a <? 0))
  else Fin (inject_Z a / inject_Z b)%Q.

Definition Math_ceil (x : number) : number :=
  match x with
  | Fin q => Fin (inject_Z (Qceiling q))
  | _ => x
  end.

(** [Array.from(new Set(l))]: the distinct elements in order of first
    occurrence. *)
Fixpoint Set_values (l : list string) : list string :=
  match l with
  | [] => []
  | x :: l' => x :: List.filter (fun y => negb (String.eqb x y)) (Set_values l')
  end.

(** [Array.prototype.sort] without a comparator, on strings. *)
Definition Array_sort (l : list string) : list string := sort_by String.leb l.

(** ** validation.ts: sanitizeString *)

(** [s.replace(/[...]/g, '')] for a class of single characters. *)
Fixpoint remove_chars (drop : ascii -> bool) (s : string) : string :=
  match s with
  | EmptyString => EmptyString
  | String c s' =>
      if drop c then remove_chars drop s' else String c (remove_chars drop s')
  end.

Definition is_angle_bracket (c : ascii) : bool :=
  Ascii.eqb c "<" || Ascii.eqb c ">".

Definition sanitizeString (input : string) : string :=
  remove_chars is_angle_bracket (JS.trim input).

(** ** The statistics and the HTTP answers *)

Record Statistics : Type := {
  totalSales : Z;
  totalRevenue : Q;
  avgOrderValue : Q;
}.

Record Pagination : Type := {
  pg_page : Z;
  pg_pageSize : Z;
  pg_totalPages : number;
  pg_totalRecords : Z;
}.

(** The JSON bodies of the three endpoints; the first three carry
    [success: true], the last [success: false]. *)
Inductive JsonBody : Type :=
| SalesBody (rows : list SalesRow) (pagination : Pagination)
    (filters : option SalesFilters) (sort search : option string)
| OptionsBody (options : FilterOptions)
| StatisticsBody (statistics : Statistics)
| FailureBody (message error : string).

Record HttpResponse : Type := {
  status : Z;
  body : JsonBody;
}.

Definition sum_finalAmount (rows : list Sales.t) : Q :=
  fold_right Qplus 0%Q (List.map Sales.finalAmount rows).

(** [aggregate({_sum: {finalAmount: true}})] and its [_avg] sibling; over
    an empty table the engine answers null, here [None]. *)
Definition aggregate_sum (db : Store) : result (option Q) :=
  match db with
  | Up rows =>
      Ok match rows with
         | [] => None
         | _ => Some (sum_finalAmount rows)
         end
  | Down => Throw "storage failure"
  end.

Definition aggregate_avg (db : Store) : result (option Q) :=
  match db with
  | Up rows =>
      Ok match rows with
         | [] => None
         | _ => Some (sum_finalAmount rows /
                      inject_Z (Z.of_nat (List.length rows)))%Q
         end
  | Down => Throw "storage failure"
  end.

(** [x || 0] for a number that may be null. *)
Definition or_zero (x : option Q) : Q :=
  match x with
  | Some q => if Qeq_bool q 0 then 0%Q else q
  | None => 0%Q
  end.

(** ** The client (App.tsx) and the loader (seed.ts) *)

(** [n.toString()] for an integer below 10^21 in absolute value (from
    there on the engine prints an exponent). *)
Definition Number_toString (n : Z) : string :=
  NilZero.string_of_int (Z.to_int n).

(** The multi-select branch of [handleFilterChange]: a value that is
    selected is taken out, one that is not is added at the end. *)
Definition toggleValue (value : string) (currentValues : list string)
  : list string :=
  if mem value currentValues
  then List.filter (fun v => negb (String.eqb v value)) currentValues
  else (currentValues ++ [value])%list.

Record SelectedFilters : Type := {
  sel_customerRegions : list string;
  sel_gender : list string;
  sel_ageMin : string;
  sel_ageMax : string;
  sel_productCategories : list string;
  sel_tags : list string;
  sel_paymentMethods : list string;
  sel_dateFrom : string;
  sel_dateTo : string;
}.

Record ClientState : Type := {
  searchTerm : string;
  selectedFilters : SelectedFilters;
  sortBy : string;
  currentPage : Z;
}.

(** [if (test) params.append(name, value)] *)
Definition append_if (test : bool) (name value : string)
    (params : gmap string QueryValue) : gmap string QueryValue :=
  if test then <[name := QStr value]> params else params.

Definition has_items (l : list string) : bool :=
  negb (List.length l =? 0)%nat.

(** The query parameters [fetchSalesData] sends; every name is appended
    at most once, so the server sees each as one string. *)
Definition request_params (st : ClientState) : gmap string QueryValue :=
  let sf := selectedFilters st in
  let params : gmap string QueryValue := ∅ in
  let params :=
    append_if (JS.truthy_string (searchTerm st)) "search" (searchTerm st)
      params in
  let params :=
    append_if (has_items (sel_customerRegions sf)) "customerRegion"
      (JS.join (sel_customerRegions sf)) params in
  let params :=
    append_if (has_items (sel_gender sf)) "gender" (JS.join (sel_gender sf))
      params in
  let params :=
    append_if (JS.truthy_string (sel_ageMin sf)) "ageMin" (sel_ageMin sf)
      params in
  let params :=
    append_if (JS.truthy_string (sel_ageMax sf)) "ageMax" (sel_ageMax sf)
      params in
  let params :=
    append_if (has_items (sel_productCategories sf)) "productCategory"
      (JS.join (sel_productCategories sf)) params in
  let params :=
    append_if (has_items (sel_tags sf)) "tags" (JS.join (sel_tags sf))
      params in
  let params :=
    append_if (has_items (sel_paymentMethods sf)) "paymentMethod"
      (JS.join (sel_paymentMethods sf)) params in
  let params :=
    append_if (JS.truthy_string (sel_dateFrom sf)) "dateFrom" (sel_dateFrom sf)
      params in
  let params :=
    append_if (JS.truthy_string (sel_dateTo sf)) "dateTo" (sel_dateTo sf)
      params in
  let params := <["sort" := QStr (sortBy st)]> params in
  let params := <["page" := QStr (Number_toString (currentPage st))]> params in
  <["limit" := QStr (Number_toString 10)]> params.

(** [String.prototype.split] with a class of one-character separators. *)
Fixpoint split_on (is_sep : ascii -> bool) (s : string) : list string :=
  match s with
  | EmptyString => [EmptyString]
  | String c s' =>
      if is_sep c then EmptyString :: split_on is_sep s'
      else match split_on is_sep s' with
           | h :: t => String c h :: t
           | [] => [String c EmptyString]
           end
  end.

Definition is_tag_separator (c : ascii) : bool :=
  Ascii.eqb c "," || Ascii.eqb c ";" || Ascii.eqb c "|".

(** The tags the loader stores for the [Tags] cell of a row ([None]: the
    row has no such cell). *)
Definition seed_tags (cell : option string) : list string :=
  match cell with
  | Some text =>
      if JS.truthy_string text then
        List.filter (fun tag => (0 <? String.length tag)%nat)
          (List.map JS.trim (split_on is_tag_separator text))
      else []
  | None => []
  end.

(** A client that filters by two regions and asks for page 3. *)
Definition client_sample : ClientState :=
  {| searchTerm := "asha";
     selectedFilters :=
       {| sel_customerRegions := ["North"; "South"]; sel_gender := [];
          sel_ageMin := "18"; sel_ageMax := "";
          sel_productCategories := []; sel_tags := ["sale"];
          sel_paymentMethods := []; sel_dateFrom := ""; sel_dateTo := "" |};
     sortBy := "name-asc"; currentPage := 3 |}.

Definition filters_inverted_age : SalesFilters :=
  {| customerRegion := None; gender := None;
     ageMin := Some 40; ageMax := Some 30;
     productCategory := None; tags := None; paymentMethod := None;
     orderStatus := None; deliveryType := None; brand := None;
     dateFrom := None; dateTo := None; priceMin := None; priceMax := None |}.

Definition filters_female : SalesFilters :=
  {| customerRegion := None; gender := Some ["Female"];
     ageMin := None; ageMax := None;
     productCategory := None; tags := None; paymentMethod := None;
     orderStatus := None; deliveryType := None; brand := None;
     dateFrom := None; dateTo := None; priceMin := None; priceMax := None |}.

(** ** Sample data *)

Definition no_filters : SalesFilters :=
  {| customerRegion := None; gender := None; ageMin := None; ageMax := None;
     productCategory := None; tags := None; paymentMethod := None;
     orderStatus := None; deliveryType := None; brand := None;
     dateFrom := None; dateTo := None; priceMin := None; priceMax := None |}.

(** A request that filters by date only. *)
Definition date_filters (from to : option QueryValue) : SalesFilters :=
  {| customerRegion := None; gender := None; ageMin := None; ageMax := None;
     productCategory := None; tags := None; paymentMethod := None;
     orderStatus := None; deliveryType := None; brand := None;
     dateFrom := from; dateTo := to; priceMin := None; priceMax := None |}.

(** A sale recorded at time value [t]. *)
Definition sale_at (t : Z) : Sales.t :=
  {| Sales.id := "T-1"; Sales.date := t; Sales.customerName := "Asha Rao";
     Sales.phoneNumber := "9876543210"; Sales.gender := "Female";
     Sales.age := 31; Sales.customerRegion := "North"; Sales.brand := "Acme";
     Sales.productCategory := "Clothing"; Sales.tags := ["sale"; "cotton"];
     Sales.quantity := 2; Sales.finalAmount := 150;
     Sales.paymentMethod := "UPI"; Sales.orderStatus := "Delivered";
     Sales.deliveryType := "Standard" |}.

(** A sale with an unknown gender and no tags, as the loader stores a row
    whose cells are empty. *)
Definition sale_blank : Sales.t :=
  {| Sales.id := "T-2"; Sales.date := 1704067200000; Sales.customerName := "";
     Sales.phoneNumber := ""; Sales.gender := ""; Sales.age := 0;
     Sales.customerRegion := ""; Sales.brand := ""; Sales.productCategory := "";
     Sales.tags := []; Sales.quantity := 0; Sales.finalAmount := 0;
     Sales.paymentMethod := ""; Sales.orderStatus := "";
     Sales.deliveryType := "" |}.

(** [?search=%20] and [?customerRegion=%20North%20&customerRegion=South] *)
Definition query_blank_search : gmap string QueryValue :=
  {[ "search" := QStr " " ]}.

Definition query_repeated_region : gmap string QueryValue :=
  {[ "customerRegion" := QArr [" North "; "South"] ]}.


Definition query_bad_numbers : gmap string QueryValue :=
  {[ "page" := QStr "-3"; "pageSize" := QStr "500"; "ageMin" := QStr "abc";
     "priceMin" := QStr "-1"; "priceMax" := QStr "99.5";
     "dateTo" := QStr "yesterday" ]}.

Definition params_of (page pageSize : Z) : SalesQueryParams :=
  {| page := Some page; pageSize := Some pageSize; search := None;
     sort := None; filters := Some no_filters |}.

(** ** The program

    [Date.parse] on strings outside the interchange format and the local
    time zone adjustment belong to the host; the program is read for any
    host. *)

Section Program.

Variable Date_parse : string -> option Z.
Variable LocalTZA : Z -> bool -> Z.

(** [new Date(value)] *)
Definition new_Date (value : QueryValue) : JSDate :=
  t ← Date_parse (ToString value); TimeClip t.

(** [d.setHours(h, m, s, ms)]: the same local day, another local time. *)
Definition Date_setHours (d : JSDate) (h m s ms : Z) : JSDate :=
  t ← d;
  let local := t + LocalTZA t true in
  let date := MakeDate (Day local) (MakeTime h m s ms) in
  TimeClip (date - LocalTZA date false).

(** *** validation.ts *)

Definition isValidDate (dateString : QueryValue) : bool :=
  match new_Date dateString with
  | Some _ => true
  | None => false
  end.

(** [if (o) then_(o) else else_] for a property that may be missing. *)
Definition if_truthy {A} (o : option QueryValue)
    (then_ : QueryValue -> A) (else_ : A) : A :=
  match o with
  | Some v => if truthy v then then_ v else else_
  | None => else_
  end.

Definition parseArrayFilter (o : option QueryValue)
  : result (option (list string)) :=
  if_truthy o (fun v => l ← parseArrayParam v; Ok (Some l)) (Ok None).

Definition parseIntBound (o : option QueryValue) : option Z :=
  if_truthy o
    (fun v =>
       match parseInt (ToString v) with
       | Some n => if 0 <=? n then Some n else None
       | None => None
       end)
    None.

Definition parseDateBound (o : option QueryValue) : option QueryValue :=
  if_truthy o (fun v => if isValidDate v then Some v else None) None.

Definition parseFloatBound (o : option QueryValue) : option number :=
  if_truthy o
    (fun v =>
       let x := parseFloat (ToString v) in
       if negb (isNaN x) && num_leb (Fin 0) x then Some x else None)
    None.

Definition parseFilters (query : gmap string QueryValue) : result SalesFilters :=
  customerRegion ← parseArrayFilter (query !! "customerRegion");
  gender ← parseArrayFilter (query !! "gender");
  productCategory ← parseArrayFilter (query !! "productCategory");
  tags ← parseArrayFilter (query !! "tags");
  paymentMethod ← parseArrayFilter (query !! "paymentMethod");
  orderStatus ← parseArrayFilter (query !! "orderStatus");
  deliveryType ← parseArrayFilter (query !! "deliveryType");
  brand ← parseArrayFilter (query !! "brand");
  let ageMin := parseIntBound (query !! "ageMin") in
  let ageMax := parseIntBound (query !! "ageMax") in
  let dateFrom := parseDateBound (query !! "dateFrom") in
  let dateTo := parseDateBound (query !! "dateTo") in
  let priceMin := parseFloatBound (query !! "priceMin") in
  let priceMax := parseFloatBound (query !! "priceMax") in
  Ok {| customerRegion := customerRegion; gender := gender;
        ageMin := ageMin; ageMax := ageMax;
        productCategory := productCategory; tags := tags;
        paymentMethod := paymentMethod; orderStatus := orderStatus;
        deliveryType := deliveryType; brand := brand;
        dateFrom := dateFrom; dateTo := dateTo;
        priceMin := priceMin; priceMax := priceMax |}.

(** The four blocks of [validateQueryParams], one per parameter. *)
Definition parsePage (o : option QueryValue) : Z :=
  if_truthy o
    (fun v =>
       match parseInt (ToString v) with
       | Some page => if 0 <? page then page else 1
       | None => 1
       end)
    1.

Definition parsePageSize (o : option QueryValue) : Z :=
  if_truthy o
    (fun v =>
       match parseInt (ToString v) with
       | Some pageSize =>
           if (0 <? pageSize) && (pageSize <=? 100) then pageSize else 10
       | None => 10
       end)
    10.

Definition parseSearch (o : option QueryValue) : result (option string) :=
  if_truthy o
    (fun v => if typeof_string v then s ← call_trim v; Ok (Some s)
              else Ok None)
    (Ok None).

Definition parseSort (o : option QueryValue) : option string :=
  if_truthy o
    (fun v => if typeof_string v then Some (ToString v) else None)
    None.

Definition validateQueryParams (query : gmap string QueryValue)
  : result SalesQueryParams :=
  let page := parsePage (query !! "page") in
  let pageSize := parsePageSize (query !! "pageSize") in
  search ← parseSearch (query !! "search");
  let sort := parseSort (query !! "sort") in
  filters ← parseFilters query;
  Ok {| page := Some page; pageSize := Some pageSize; search := search;
        sort := sort; filters := Some filters |}.

(** *** query.ts *)

Definition truthy_opt (o : option QueryValue) : bool :=
  if_truthy o (fun _ => true) false.

Definition defined {A} (o : option A) : bool :=
  match o with Some _ => true | None => false end.

Definition push_if {A} (test : bool) (x : A) (l : list A) : list A :=
  if test then (l ++ [x])%list else l.

(** [if (values && values.length > 0) conditions.push(make(values))] *)
Definition push_list (values : option (list string))
    (make : list string -> SalesWhereInput)
    (conditions : list SalesWhereInput) : list SalesWhereInput :=
  match values with
  | Some l => push_if (0 <? List.length l)%nat (make l) conditions
  | None => conditions
  end.

Definition buildWhereClause (search : option string)
    (filters : option SalesFilters) : SalesWhereInput :=
  let conditions := [] in
  let conditions :=
    match search with
    | Some s =>
        push_if (JS.truthy_string s && JS.truthy_string (JS.trim s))
          (W_OR [W_contains Field.customerName (JS.trim s);
                 W_contains Field.phoneNumber (JS.trim s)])
          conditions
    | None => conditions
    end in
  let conditions :=
    match filters with
    | None => conditions
    | Some f =>
        let conditions :=
          push_list (customerRegion f) (W_in Field.customerRegion) conditions in
        let conditions := push_list (gender f) (W_in Field.gender) conditions in
        let conditions :=
          push_if (defined (ageMin f) || defined (ageMax f))
            (W_age (ageMin f) (ageMax f)) conditions in
        let conditions :=
          push_list (productCategory f) (W_in Field.productCategory) conditions in
        let conditions := push_list (tags f) W_hasSome conditions in
        let conditions :=
          push_list (paymentMethod f) (W_in Field.paymentMethod) conditions in
        let conditions :=
          push_list (orderStatus f) (W_in Field.orderStatus) conditions in
        let conditions :=
          push_list (deliveryType f) (W_in Field.deliveryType) conditions in
        let conditions := push_list (brand f) (W_in Field.brand) conditions in
        let conditions :=
          push_if (truthy_opt (dateFrom f) || truthy_opt (dateTo f))
            (W_date
               (if_truthy (dateFrom f) (fun v => Some (new_Date v)) None)
               (if_truthy (dateTo f)
                  (fun v => Some (Date_setHours (new_Date v) 23 59 59 999))
                  None))
            conditions in
        let conditions :=
          push_if (defined (priceMin f) || defined (priceMax f))
            (W_finalAmount (priceMin f) (priceMax f)) conditions in
        conditions
    end in
  if (List.length conditions =? 0)%nat then W_any else W_AND conditions.

(** *** sales.service.ts *)

Definition buildOrderBy (sort : option string) : SortField * SortOrder :=
  match sort with
  | None => (by_date, desc)
  | Some s =>
      if negb (JS.truthy_string s) then (by_date, desc)
      else if String.eqb s "date-newest" then (by_date, desc)
      else if String.eqb s "date-oldest" then (by_date, asc)
      else if String.eqb s "quantity-high" then (by_quantity, desc)
      else if String.eqb s "quantity-low" then (by_quantity, asc)
      else if String.eqb s "name-asc" then (by_customerName, asc)
      else if String.eqb s "name-desc" then (by_customerName, desc)
      else (by_date, desc)
  end.

Definition mapRecord (record : Sales.t) : SalesRow :=
  {| Transaction_ID := Sales.id record;
     Date_ := Day (Sales.date record);
     Customer_Name := Sales.customerName record;
     Phone_Number := Sales.phoneNumber record;
     Gender := Sales.gender record;
     Age := Sales.age record;
     Customer_Region := Sales.customerRegion record;
     Brand := Sales.brand record;
     Product_Category := Sales.productCategory record;
     Tags := Sales.tags record;
     Quantity := Sales.quantity record;
     Final_Amount := Sales.finalAmount record;
     Payment_Method := Sales.paymentMethod record;
     Order_Status := Sales.orderStatus record;
     Delivery_Type := Sales.deliveryType record |}.

Definition getSales (db : Store) (params : SalesQueryParams)
  : result SalesResponse :=
  let page := default 1 (page params) in
  let pageSize := default 10 (pageSize params) in
  let skip := (page - 1) * pageSize in
  let whereClause := buildWhereClause (search params) (filters params) in
  let orderBy := buildOrderBy (sort params) in
  match
    rawData ← findMany db whereClause orderBy skip pageSize;
    totalRecords ← count db whereClause;
    Ok (rawData, totalRecords)
  with
  | Ok (rawData, totalRecords) =>
      let mappedData := List.map mapRecord rawData in
      let totalPages := Math_ceil (num_div totalRecords pageSize) in
      Ok {| data := mappedData; resp_page := page; resp_pageSize := pageSize;
            totalPages := totalPages; totalRecords := totalRecords |}
  | Throw _ => Throw "Failed to fetch sales data"
  end.

Definition distinct (values : list string) : list string :=
  Array_sort (Set_values (List.filter JS.truthy_string values)).

Definition getFilterOptions (db : Store) : result FilterOptions :=
  match select_all db with
  | Ok allFields =>
      Ok {| customerRegions := distinct (List.map Sales.customerRegion allFields);
            genders := distinct (List.map Sales.gender allFields);
            productCategories := distinct (List.map Sales.productCategory allFields);
            paymentMethods := distinct (List.map Sales.paymentMethod allFields);
            orderStatuses := distinct (List.map Sales.orderStatus allFields);
            deliveryTypes := distinct (List.map Sales.deliveryType allFields);
            brands := distinct (List.map Sales.brand allFields);
            opt_tags := distinct (List.flat_map Sales.tags allFields) |}
  | Throw _ => Throw "Failed to fetch filter options"
  end.


Definition getStatistics (db : Store) : result Statistics :=
  match
    totalSales ← count db W_any;
    totalRevenue ← aggregate_sum db;
    avgOrderValue ← aggregate_avg db;
    Ok (totalSales, totalRevenue, avgOrderValue)
  with
  | Ok (totalSales, totalRevenue, avgOrderValue) =>
      Ok {| totalSales := totalSales;
            totalRevenue := or_zero totalRevenue;
            avgOrderValue := or_zero avgOrderValue |}
  | Throw _ => Throw "Failed to fetch statistics"
  end.

(** *** sales.controller.ts *)

Definition SalesController_getSales (db : Store)
    (query : gmap string QueryValue) : HttpResponse :=
  match
    queryParams ← validateQueryParams query;
    result ← getSales db queryParams;
    Ok (queryParams, result)
  with
  | Ok (queryParams, result) =>
      {| status := 200;
         body :=
           SalesBody (data result)
             {| pg_page := resp_page result;
                pg_pageSize := resp_pageSize result;
                pg_totalPages := totalPages result;
                pg_totalRecords := totalRecords result |}
             (filters queryParams) (sort queryParams) (search queryParams) |}
  | Throw message =>
      {| status := 500;
         body := FailureBody "Failed to fetch sales data" message |}
  end.

Definition SalesController_getFilterOptions (db : Store) : HttpResponse :=
  match getFilterOptions db with
  | Ok options => {| status := 200; body := OptionsBody options |}
  | Throw message =>
      {| status := 500;
         body := FailureBody "Failed to fetch filter options" message |}
  end.

Definition SalesController_getStatistics (db : Store) : HttpResponse :=
  match getStatistics db with
  | Ok stats => {| status := 200; body := StatisticsBody stats |}
  | Throw message =>
      {| status := 500;
         body := FailureBody "Failed to fetch statistics" message |}
  end.

(** ** The specification's vocabulary *)

(** The sort table of the specification. *)
Definition spec_sort_table : list (string * (SortField * SortOrder)) :=
  [ ("date-newest", (by_date, desc));
    ("date-oldest", (by_date, asc));
    ("quantity-high", (by_quantity, desc));
    ("quantity-low", (by_quantity, asc));
    ("name-asc", (by_customerName, asc));
    ("name-desc", (by_customerName, desc)) ].

Fixpoint table_find {V} (key : string) (table : list (string * V)) : option V :=
  match table with
  | [] => None
  | (k, v) :: rest => if String.eqb key k then Some v else table_find key rest
  end.

(** The filters of a request, as the specification counts them: the
    search term, one per multi-select column, the tags, and the three
    ranges. *)
Inductive FilterKind : Type :=
| K_search
| K_in (column : Field.t)
| K_tags
| K_age
| K_date
| K_price.

Definition all_filters : list FilterKind :=
  [ K_search; K_in Field.customerRegion; K_in Field.gender; K_age;
    K_in Field.productCategory; K_tags; K_in Field.paymentMethod;
    K_in Field.orderStatus; K_in Field.deliveryType; K_in Field.brand;
    K_date; K_price ].

Definition fget {A} (proj : SalesFilters -> option A)
    (filters : option SalesFilters) : option A :=
  f ← filters; proj f.

(** The value list a request carries for a multi-select column. *)
Definition selected (column : Field.t) (filters : option SalesFilters)
  : option (list string) :=
  match column with
  | Field.customerRegion => fget customerRegion filters
  | Field.gender => fget gender filters
  | Field.productCategory => fget productCategory filters
  | Field.paymentMethod => fget paymentMethod filters
  | Field.orderStatus => fget orderStatus filters
  | Field.deliveryType => fget deliveryType filters
  | Field.brand => fget brand filters
  | Field.customerName | Field.phoneNumber => None
  end.

Definition nonempty {A} (o : option (list A)) : bool :=
  match o with
  | Some (_ :: _) => true
  | _ => false
  end.

(** A filter is present when it carries something to filter by: a search
    term with text left after trimming, a value list with at least one
    value, a range with at least one bound (for dates, a bound that is
    not the empty string). *)
Definition present (search : option string) (filters : option SalesFilters)
    (k : FilterKind) : bool :=
  match k with
  | K_search =>
      match search with
      | Some s => JS.truthy_string (JS.trim s)
      | None => false
      end
  | K_in column => nonempty (selected column filters)
  | K_tags => nonempty (fget tags filters)
  | K_age => defined (fget ageMin filters) || defined (fget ageMax filters)
  | K_date =>
      truthy_opt (fget dateFrom filters) || truthy_opt (fget dateTo filters)
  | K_price => defined (fget priceMin filters) || defined (fget priceMax filters)
  end.

(** The one condition a present filter stands for. *)
Definition condition (search : option string) (filters : option SalesFilters)
    (k : FilterKind) : SalesWhereInput :=
  match k with
  | K_search =>
      let term := JS.trim (default "" search) in
      W_OR [W_contains Field.customerName term;
            W_contains Field.phoneNumber term]
  | K_in column => W_in column (default [] (selected column filters))
  | K_tags => W_hasSome (default [] (fget tags filters))
  | K_age => W_age (fget ageMin filters) (fget ageMax filters)
  | K_date =>
      W_date
        (v ← fget dateFrom filters;
         if truthy v then Some (new_Date v) else None)
        (v ← fget dateTo filters;
         if truthy v then Some (Date_setHours (new_Date v) 23 59 59 999)
         else None)
  | K_price => W_finalAmount (fget priceMin filters) (fget priceMax filters)
  end.

(** What a filter asks of a record, said on the record itself. *)
Definition holds (search : option string) (filters : option SalesFilters)
    (k : FilterKind) (r : Sales.t) : Prop :=
  match k with
  | K_search =>
      forall s, search = Some s ->
        contains_insensitive (Sales.customerName r) (JS.trim s) = true \/
        contains_insensitive (Sales.phoneNumber r) (JS.trim s) = true
  | K_in column =>
      forall values, selected column filters = Some values ->
        In (Field.get column r) values
  | K_tags =>
      forall values, fget tags filters = Some values ->
        exists tag, In tag (Sales.tags r) /\ In tag values
  | K_age =>
      (forall lo, fget ageMin filters = Some lo -> lo <= Sales.age r) /\
      (forall hi, fget ageMax filters = Some hi -> Sales.age r <= hi)
  | K_date =>
      (forall v, fget dateFrom filters = Some v -> truthy v = true ->
         exists t, new_Date v = Some t /\ t <= Sales.date r) /\
      (forall v, fget dateTo filters = Some v -> truthy v = true ->
         exists t, Date_setHours (new_Date v) 23 59 59 999 = Some t /\
                   Sales.date r <= t)
  | K_price =>
      (forall lo, fget priceMin filters = Some lo ->
         num_leb lo (Fin (Sales.finalAmount r)) = true) /\
      (forall hi, fget priceMax filters = Some hi ->
         num_leb (Fin (Sales.finalAmount r)) hi = true)
  end.


(** The conditions of a compiled predicate. *)
Definition conditions_of (w : SalesWhereInput) : list SalesWhereInput :=
  match w with
  | W_AND conditions => conditions
  | W_any => []
  | _ => [w]
  end.

(** A number that is at least zero. *)
Definition nonneg (x : number) : Prop :=
  match x with
  | Fin q => (0 <= q)%Q
  | Infinity negative => negative = false
  | NaN => False
  end.

(** The rules of the parameter validator, in the specification's words:
    parse; on failure or out of range, the default. *)
Definition parsed_int (raw : option QueryValue) : option Z :=
  v ← raw; parseInt (ToString v).

Definition spec_page (raw : option QueryValue) : Z :=
  match parsed_int raw with
  | Some n => if n <=? 0 then 1 else n
  | None => 1
  end.

Definition spec_pageSize (raw : option QueryValue) : Z :=
  match parsed_int raw with
  | Some n => if (n <=? 0) || (100 <? n) then 10 else n
  | None => 10
  end.

Definition spec_int_bound (raw : option QueryValue) : option Z :=
  n ← parsed_int raw; if 0 <=? n then Some n else None.


(** A raw search value with nothing in it: missing, not a string, or a
    string that is empty after trimming. *)
Definition blank_search (raw : option QueryValue) : Prop :=
  match raw with
  | Some (QStr s) => JS.trim s = ""
  | _ => True
  end.

(** [out] is the catalog of [values]: the distinct non-empty values, each
    once, in ascending order of their code units. *)
Definition catalog (values out : list string) : Prop :=
  List.NoDup out /\
  Sorted (fun a b => String.leb a b = true) out /\
  forall v, In v out <-> v <> "" /\ In v values.

(** No white space at the front. *)
Definition starts_clean (s : string) : bool :=
  match s with
  | EmptyString => true
  | String c _ => negb (JS.is_ws c)
  end.

(** A token of a multi-select filter as the specification wants it. *)
Definition clean_token (x : string) : Prop := x <> "" /\ JS.trim x = x.

(** ** Vocabulary of the further properties *)

(** The keys the validator reads. *)
Definition known_keys : list string :=
  [ "page"; "pageSize"; "search"; "sort"; "customerRegion"; "gender";
    "productCategory"; "tags"; "paymentMethod"; "orderStatus";
    "deliveryType"; "brand"; "ageMin"; "ageMax"; "dateFrom"; "dateTo";
    "priceMin"; "priceMax" ].

Definition chars (s : string) : list ascii := list_ascii_of_string s.

(** A value that can travel in a comma-separated list. *)
Definition comma_free (s : string) : Prop := ~ In ","%char (chars s).

(** Two neighbouring rows of a page stand in the requested order. *)
Definition row_ordered (orderBy : SortField * SortOrder) (a b : SalesRow)
  : Prop :=
  match orderBy with
  | (by_date, asc) => Date_ a <= Date_ b
  | (by_date, desc) => Date_ b <= Date_ a
  | (by_quantity, asc) => Quantity a <= Quantity b
  | (by_quantity, desc) => Quantity b <= Quantity a
  | (by_customerName, asc) =>
      String.leb (Customer_Name a) (Customer_Name b) = true
  | (by_customerName, desc) =>
      String.leb (Customer_Name b) (Customer_Name a) = true
  end.

(** A multi-select column as it shows in a response row. *)
Definition row_field (column : Field.t) (row : SalesRow) : string :=
  match column with
  | Field.customerName => Customer_Name row
  | Field.phoneNumber => Phone_Number row
  | Field.customerRegion => Customer_Region row
  | Field.gender => Gender row
  | Field.productCategory => Product_Category row
  | Field.paymentMethod => Payment_Method row
  | Field.orderStatus => Order_Status row
  | Field.deliveryType => Delivery_Type row
  | Field.brand => Brand row
  end.

(** A value list the client can send: each value trimmed, not empty and
    free of commas. *)
Definition sendable (values : list string) : Prop :=
  Forall clean_token values /\ Forall comma_free values.

(** What a sent value list becomes in the filters. *)
Definition as_filter (values : list string) : option (list string) :=
  match values with
  | [] => None
  | _ => Some values
  end.

(** The decimal digits of a numeral. *)
Fixpoint digits_of_uint (d : Decimal.uint) : list Z :=
  match d with
  | Decimal.Nil => []
  | Decimal.D0 l => 0 :: digits_of_uint l
  | Decimal.D1 l => 1 :: digits_of_uint l
  | Decimal.D2 l => 2 :: digits_of_uint l
  | Decimal.D3 l => 3 :: digits_of_uint l
  | Decimal.D4 l => 4 :: digits_of_uint l
  | Decimal.D5 l => 5 :: digits_of_uint l
  | Decimal.D6 l => 6 :: digits_of_uint l
  | Decimal.D7 l => 7 :: digits_of_uint l
  | Decimal.D8 l => 8 :: digits_of_uint l
  | Decimal.D9 l => 9 :: digits_of_uint l
  end.

(** * Properties *)

(** ** Strings *)

#[local] Arguments JS.is_ws : simpl never.

Lemma trimStart_starts_clean s : starts_clean (JS.trimStart s) = true.
Proof.
  induction s as [|c s IH]; simpl; [reflexivity|].
  destruct (JS.is_ws c) eqn:E; [exact IH|]. simpl. now rewrite E.
Qed.

Lemma trimStart_clean s : starts_clean s = true -> JS.trimStart s = s.
Proof.
  destruct s as [|c s]; simpl; [reflexivity|].
  now destruct (JS.is_ws c).
Qed.

Lemma trimEnd_starts_clean s :
  starts_clean s = true -> starts_clean (JS.trimEnd s) = true.
Proof.
  destruct s as [|c s]; simpl; [reflexivity|].
  intros Hc. destruct (JS.trimEnd s); [|exact Hc].
  destruct (JS.is_ws c) eqn:W; [reflexivity | simpl; now rewrite W].
Qed.

Lemma trimEnd_idempotent s : JS.trimEnd (JS.trimEnd s) = JS.trimEnd s.
Proof.
  induction s as [|c s IH]; simpl; [reflexivity|].
  destruct (JS.trimEnd s) as [|d t] eqn:E.
  - destruct (JS.is_ws c) eqn:W; simpl; [reflexivity|]. now rewrite W.
  - change (JS.trimEnd (String c (String d t))) with
      (match JS.trimEnd (String d t) with
       | EmptyString =>
           if JS.is_ws c then EmptyString else String c EmptyString
       | u => String c u
       end).
    now rewrite IH.
Qed.

Lemma trim_idempotent s : JS.trim (JS.trim s) = JS.trim s.
Proof.
  unfold JS.trim.
  rewrite (trimStart_clean (JS.trimEnd (JS.trimStart s))).
  - apply trimEnd_idempotent.
  - apply trimEnd_starts_clean, trimStart_starts_clean.
Qed.

Lemma truthy_string_spec s : JS.truthy_string s = true <-> s <> "".
Proof. destruct s; simpl; split; congruence. Qed.

(** ** parseArrayParam *)

(** The comma-separated branch does what the specification says: split,
    trim, drop the empty tokens. *)
Lemma parseArrayParam_string s :
  parseArrayParam (QStr s) =
  Ok (List.filter JS.truthy_string (List.map JS.trim (JS.split "," s))).
Proof. reflexivity. Qed.

Lemma parseArrayParam_string_clean s l :
  parseArrayParam (QStr s) = Ok l -> Forall clean_token l.
Proof.
  rewrite parseArrayParam_string. intros [= <-].
  apply List.Forall_forall. intros x Hx.
  apply filter_In in Hx as [Hin Hne].
  apply in_map_iff in Hin as (y & <- & _).
  split; [now apply truthy_string_spec | apply trim_idempotent].
Qed.

(** The array branch keeps the items whose trimmed text is not empty, as
    they were supplied. *)
Lemma parseArrayParam_array items :
  parseArrayParam (QArr items) =
  Ok (List.filter (fun item => JS.truthy_string (JS.trim item)) items).
Proof. reflexivity. Qed.

Lemma parseArrayParam_total param : exists l, parseArrayParam param = Ok l.
Proof. destruct param; eexists; reflexivity. Qed.

(** X1: a multi-select filter supplied as one comma-separated string is
    split on the comma, each token is trimmed and the empty ones are
    dropped; what is kept is a list of non-empty strings, each equal to
    its own trim. *)
Theorem parseArrayParam_string_tokens (s : string) :
  exists tokens,
    parseArrayParam (QStr s) = Ok tokens /\
    tokens = List.filter JS.truthy_string (List.map JS.trim (JS.split "," s)) /\
    Forall clean_token tokens.
Proof.
  eexists. split; [apply parseArrayParam_string|]. split; [reflexivity|].
  apply (parseArrayParam_string_clean s), parseArrayParam_string.
Qed.

(** C4, at the input [customerRegion=%20North%20&customerRegion=South]:
    the query parser delivers the array [[" North "; "South"]], and
    [parseArrayParam] returns it unchanged, so the validated list holds
    [" North "], which is not equal to its own trim; an item with a comma
    is not split either. *)
Theorem parseArrayParam_array_keeps_raw_items :
  parseArrayParam (QArr [" North "; "South"]) = Ok [" North "; "South"] /\
  JS.trim " North " <> " North " /\
  parseArrayParam (QArr ["East,West"]) = Ok ["East,West"] /\
  parseArrayParam (QStr " North ,South") = Ok ["North"; "South"].
Proof. repeat split; try reflexivity. discriminate. Qed.

(** ** buildOrderBy *)

(** C8: the sort resolver maps a token to the pair the table gives for
    it, and an absent, empty or unlisted token to (transaction date,
    descending). *)
Theorem buildOrderBy_table (sort : option string) :
  buildOrderBy sort =
  match sort with
  | Some token => default (by_date, desc) (table_find token spec_sort_table)
  | None => (by_date, desc)
  end.
Proof.
  destruct sort as [s|]; [|reflexivity].
  unfold buildOrderBy, spec_sort_table, table_find.
  destruct (JS.truthy_string s) eqn:T; simpl.
  - repeat match goal with
           | |- context [String.eqb s ?k] => destruct (String.eqb s k)
           end; reflexivity.
  - destruct s; [reflexivity | discriminate].
Qed.

Example buildOrderBy_rows :
  buildOrderBy (Some "date-newest") = (by_date, desc) /\
  buildOrderBy (Some "date-oldest") = (by_date, asc) /\
  buildOrderBy (Some "quantity-high") = (by_quantity, desc) /\
  buildOrderBy (Some "quantity-low") = (by_quantity, asc) /\
  buildOrderBy (Some "name-asc") = (by_customerName, asc) /\
  buildOrderBy (Some "name-desc") = (by_customerName, desc) /\
  buildOrderBy (Some "price-high") = (by_date, desc) /\
  buildOrderBy None = (by_date, desc).
Proof. repeat split; reflexivity. Qed.

(** ** The parameter validator *)

Lemma falsy_ToString v : truthy v = false -> ToString v = "".
Proof. destruct v as [[|c s]|l]; simpl; congruence. Qed.

Lemma parsePage_spec o : parsePage o = spec_page o.
Proof.
  destruct o as [v|]; [|reflexivity].
  unfold parsePage, spec_page, parsed_int, if_truthy; simpl.
  destruct (truthy v) eqn:T.
  - destruct (parseInt (ToString v)) as [n|]; [|reflexivity].
    destruct (Z.ltb_spec 0 n), (Z.leb_spec n 0); try reflexivity; lia.
  - now rewrite (falsy_ToString v T).
Qed.

Lemma parsePageSize_spec o : parsePageSize o = spec_pageSize o.
Proof.
  destruct o as [v|]; [|reflexivity].
  unfold parsePageSize, spec_pageSize, parsed_int, if_truthy; simpl.
  destruct (truthy v) eqn:T.
  - destruct (parseInt (ToString v)) as [n|]; [|reflexivity].
    destruct (Z.ltb_spec 0 n), (Z.leb_spec n 0), (Z.leb_spec n 100),
      (Z.ltb_spec 100 n); simpl; try reflexivity; lia.
  - now rewrite (falsy_ToString v T).
Qed.

Lemma parseIntBound_spec o : parseIntBound o = spec_int_bound o.
Proof.
  destruct o as [v|]; [|reflexivity].
  unfold parseIntBound, spec_int_bound, parsed_int, if_truthy; simpl.
  destruct (truthy v) eqn:T.
  - now destruct (parseInt (ToString v)).
  - now rewrite (falsy_ToString v T).
Qed.

Lemma parsePage_positive o : 1 <= parsePage o.
Proof.
  rewrite parsePage_spec. unfold spec_page.
  destruct (parsed_int o) as [n|]; [|lia].
  destruct (Z.leb_spec n 0); lia.
Qed.

Lemma parsePageSize_range o : 1 <= parsePageSize o <= 100.
Proof.
  rewrite parsePageSize_spec. unfold spec_pageSize.
  destruct (parsed_int o) as [n|]; [|lia].
  destruct (Z.leb_spec n 0), (Z.ltb_spec 100 n); simpl; lia.
Qed.

Lemma parseIntBound_nonneg o n : parseIntBound o = Some n -> 0 <= n.
Proof.
  rewrite parseIntBound_spec. unfold spec_int_bound.
  destruct (parsed_int o) as [m|]; simpl; [|discriminate].
  destruct (Z.leb_spec 0 m); [|discriminate]. intros [= <-]. lia.
Qed.

Lemma num_leb_zero_nonneg x : num_leb (Fin 0) x = true -> nonneg x.
Proof.
  destruct x as [|q|[|]]; simpl; try discriminate; try reflexivity.
  apply Qle_bool_imp_le.
Qed.

Lemma parseFloatBound_nonneg o x : parseFloatBound o = Some x -> nonneg x.
Proof.
  destruct o as [v|]; [|discriminate].
  unfold parseFloatBound, if_truthy.
  destruct (truthy v); [|discriminate].
  set (x' := parseFloat (ToString v)).
  destruct (negb (isNaN x') && num_leb (Fin 0) x') eqn:E; [|discriminate].
  intros [= <-]. apply andb_true_iff in E as [_ E].
  now apply num_leb_zero_nonneg.
Qed.

Lemma parseDateBound_valid o v :
  parseDateBound o = Some v ->
  o = Some v /\ truthy v = true /\ exists t, new_Date v = Some t.
Proof.
  destruct o as [w|]; [|discriminate].
  unfold parseDateBound, if_truthy, isValidDate.
  destruct (truthy w) eqn:T; [|discriminate].
  destruct (new_Date w) as [t|] eqn:E; [|discriminate].
  intros [= <-]. eauto.
Qed.

(** The guard [typeof v === 'string'] is what keeps [v.trim()] from
    throwing. *)
Lemma parseSearch_ok o :
  parseSearch o =
  Ok match o with
     | Some (QStr s) => if JS.truthy_string s then Some (JS.trim s) else None
     | _ => None
     end.
Proof.
  destruct o as [[s|l]|]; try reflexivity.
  unfold parseSearch, if_truthy; simpl. now destruct (JS.truthy_string s).
Qed.

Lemma parseArrayFilter_total o : exists r, parseArrayFilter o = Ok r.
Proof.
  destruct o as [v|]; [|now exists None].
  unfold parseArrayFilter, if_truthy.
  destruct (truthy v); [|now exists None].
  destruct (parseArrayParam_total v) as [l ->]. now exists (Some l).
Qed.

Lemma parseFilters_ok query :
  exists f, parseFilters query = Ok f /\
    ageMin f = parseIntBound (query !! "ageMin") /\
    ageMax f = parseIntBound (query !! "ageMax") /\
    dateFrom f = parseDateBound (query !! "dateFrom") /\
    dateTo f = parseDateBound (query !! "dateTo") /\
    priceMin f = parseFloatBound (query !! "priceMin") /\
    priceMax f = parseFloatBound (query !! "priceMax") /\
    parseArrayFilter (query !! "customerRegion") = Ok (customerRegion f) /\
    parseArrayFilter (query !! "gender") = Ok (gender f) /\
    parseArrayFilter (query !! "productCategory") = Ok (productCategory f) /\
    parseArrayFilter (query !! "tags") = Ok (tags f) /\
    parseArrayFilter (query !! "paymentMethod") = Ok (paymentMethod f) /\
    parseArrayFilter (query !! "orderStatus") = Ok (orderStatus f) /\
    parseArrayFilter (query !! "deliveryType") = Ok (deliveryType f) /\
    parseArrayFilter (query !! "brand") = Ok (brand f).
Proof.
  unfold parseFilters.
  destruct (parseArrayFilter_total (query !! "customerRegion")) as [a1 ->].
  destruct (parseArrayFilter_total (query !! "gender")) as [a2 ->].
  destruct (parseArrayFilter_total (query !! "productCategory")) as [a3 ->].
  destruct (parseArrayFilter_total (query !! "tags")) as [a4 ->].
  destruct (parseArrayFilter_total (query !! "paymentMethod")) as [a5 ->].
  destruct (parseArrayFilter_total (query !! "orderStatus")) as [a6 ->].
  destruct (parseArrayFilter_total (query !! "deliveryType")) as [a7 ->].
  destruct (parseArrayFilter_total (query !! "brand")) as [a8 ->].
  eexists; split; [reflexivity|]. simpl. repeat split; reflexivity.
Qed.

Lemma validateQueryParams_ok query :
  exists f, parseFilters query = Ok f /\
    validateQueryParams query =
    Ok {| page := Some (parsePage (query !! "page"));
          pageSize := Some (parsePageSize (query !! "pageSize"));
          search := match query !! "search" with
                    | Some (QStr s) =>
                        if JS.truthy_string s then Some (JS.trim s) else None
                    | _ => None
                    end;
          sort := parseSort (query !! "sort");
          filters := Some f |}.
Proof.
  destruct (parseFilters_ok query) as (f & Hf & _).
  exists f. split; [exact Hf|].
  unfold validateQueryParams. rewrite parseSearch_ok, Hf. reflexivity.
Qed.



(** C3, as the code has it: the validated search term is present exactly
    when the raw value is a non-empty string, and is then its trimmed text
    (the empty string for a value of white space only); a search value with
    nothing in it compiles to the predicate of a request without search. *)
Theorem validated_search (query : gmap string QueryValue) :
  exists params,
    validateQueryParams query = Ok params /\
    (forall t, search params = Some t <->
       exists s, query !! "search" = Some (QStr s) /\ s <> "" /\ t = JS.trim s) /\
    (blank_search (query !! "search") ->
       forall fs, buildWhereClause (search params) fs = buildWhereClause None fs).
Proof.
  destruct (validateQueryParams_ok query) as (f & _ & Hv).
  eexists. split; [exact Hv|]. simpl.
  destruct (query !! "search") as [[s|l]|]; simpl.
  - split.
    + intros t. destruct s as [|c s]; simpl; split.
      * discriminate.
      * intros (s' & [= <-] & Hne & _). congruence.
      * intros [= <-]. eexists. repeat split. discriminate.
      * intros (s' & [= <-] & _ & ->). reflexivity.
    + intros Hblank fs. destruct s as [|c s]; simpl; [reflexivity|].
      rewrite Hblank. reflexivity.
  - split; [|reflexivity].
    intros t; split; [discriminate|]. intros (s & [=] & _).
  - split; [|reflexivity].
    intros t; split; [discriminate|]. intros (s & [=] & _).
Qed.

(** C10: every request the validator produces is well formed: the page
    is at least 1, the page size lies between 1 and 100, the retained age
    and price bounds are at least 0, the retained dates parse, and the
    filters object is there. *)
Theorem validateQueryParams_well_formed (query : gmap string QueryValue) :
  exists params f p n,
    validateQueryParams query = Ok params /\
    page params = Some p /\ 1 <= p /\
    pageSize params = Some n /\ 1 <= n <= 100 /\
    filters params = Some f /\
    (forall a, ageMin f = Some a -> 0 <= a) /\
    (forall a, ageMax f = Some a -> 0 <= a) /\
    (forall x, priceMin f = Some x -> nonneg x) /\
    (forall x, priceMax f = Some x -> nonneg x) /\
    (forall v, dateFrom f = Some v -> exists t, new_Date v = Some t) /\
    (forall v, dateTo f = Some v -> exists t, new_Date v = Some t).
Proof.
  destruct (validateQueryParams_ok query) as (f & Hf & Hv).
  destruct (parseFilters_ok query) as (f' & Hf' & Hrest).
  assert (f' = f) as -> by congruence.
  destruct Hrest as (A1 & A2 & D1 & D2 & P1 & P2 & _).
  eexists _, f, _, _. split; [exact Hv|]. simpl.
  split; [reflexivity|]. split; [apply parsePage_positive|].
  split; [reflexivity|]. split; [apply parsePageSize_range|].
  split; [reflexivity|].
  rewrite A1, A2, P1, P2, D1, D2.
  repeat split; intros x Hx;
    eauto using parseIntBound_nonneg, parseFloatBound_nonneg;
    now apply parseDateBound_valid in Hx as (_ & _ & Ht).
Qed.

(** ** The filter compiler *)

Lemma push_if_app {A} (test : bool) (x : A) l :
  push_if test x l = (l ++ (if test then [x] else []))%list.
Proof. destruct test; simpl; [reflexivity | now rewrite app_nil_r]. Qed.

Lemma push_list_app values make l :
  push_list values make l =
  (l ++ (if nonempty values then [make (default [] values)] else []))%list.
Proof.
  destruct values as [[|v values]|]; simpl; now rewrite ?app_nil_r.
Qed.

Lemma map_filter_cons {A B} (g : A -> B) (p : A -> bool) x l :
  List.map g (List.filter p (x :: l)) =
  ((if p x then [g x] else []) ++ List.map g (List.filter p l))%list.
Proof. simpl. now destruct (p x). Qed.

(** The list of conditions the compiler pushes, in its order. *)
Lemma buildWhereClause_conditions search filters :
  buildWhereClause search filters =
  match List.map (condition search filters)
          (List.filter (present search filters) all_filters) with
  | [] => W_any
  | cs => W_AND cs
  end.
Proof.
  unfold all_filters. rewrite !map_filter_cons.
  unfold buildWhereClause.
  assert (Hfin : forall cs : list SalesWhereInput,
             (if (List.length cs =? 0)%nat then W_any else W_AND cs) =
             match cs with [] => W_any | cs' => W_AND cs' end)
    by (now intros [|c cs]).
  rewrite Hfin. clear Hfin.
  match goal with
  | |- match ?a with _ => _ end = match ?b with _ => _ end =>
      cut (a = b); [intros ->; now destruct b|]
  end.
  destruct filters as [f|].
  - rewrite !push_if_app, !push_list_app. simpl List.filter. simpl List.map.
    rewrite <- !app_assoc. simpl.
    destruct search as [s|]; simpl.
    + assert (Hs : JS.truthy_string s && JS.truthy_string (JS.trim s) =
                   JS.truthy_string (JS.trim s)).
      { destruct s; [reflexivity|]. reflexivity. }
      rewrite Hs. clear Hs. rewrite ?app_nil_r.
      repeat f_equal.
      all: unfold truthy_opt, if_truthy;
        destruct (dateFrom f) as [v1|], (dateTo f) as [v2|]; simpl;
        try destruct (truthy v1); try destruct (truthy v2); reflexivity.
    + rewrite ?app_nil_r. repeat f_equal.
      all: unfold truthy_opt, if_truthy;
        destruct (dateFrom f) as [v1|], (dateTo f) as [v2|]; simpl;
        try destruct (truthy v1); try destruct (truthy v2); reflexivity.
  - simpl. rewrite app_nil_r.
    destruct search as [s|]; simpl; [|reflexivity].
    rewrite push_if_app. simpl.
    destruct s; [reflexivity|]. reflexivity.
Qed.

Lemma mem_In x l : mem x l = true <-> In x l.
Proof.
  unfold mem. rewrite existsb_exists. split.
  - intros (y & Hy & E). apply String.eqb_eq in E. now subst.
  - intros H. exists x. split; [exact H | apply String.eqb_refl].
Qed.

Lemma present_listed search filters k :
  present search filters k = true -> In k all_filters.
Proof.
  destruct k as [|[]| | | |]; simpl; try discriminate; intros _; tauto.
Qed.

Lemma all_filters_NoDup : List.NoDup all_filters.
Proof.
  unfold all_filters.
  repeat constructor.
  all: simpl; intuition discriminate.
Qed.

(** The condition of a present filter says, of a record, what the filter
    asks. *)
Lemma condition_holds search filters k r :
  present search filters k = true ->
  matches (condition search filters k) r = true <-> holds search filters k r.
Proof.
  destruct k as [|column| | | |]; simpl.
  - destruct search as [s|]; [|discriminate]. intros _. simpl.
    rewrite orb_false_r, orb_true_iff. split.
    + intros H s' [= <-]. exact H.
    + intros H. now apply H.
  - destruct (selected column filters) as [[|v values]|]; try discriminate.
    intros _. simpl default. rewrite mem_In. split.
    + intros H l [= <-]. exact H.
    + intros H. now apply H.
  - destruct (fget tags filters) as [[|v values]|]; try discriminate.
    intros _. simpl default. rewrite existsb_exists. split.
    + intros (t & Ht & Hm) l [= <-]. exists t. split; [exact Ht|].
      now apply mem_In.
    + intros H. destruct (H _ eq_refl) as (t & Ht & Hm).
      exists t. split; [exact Ht|]. now apply mem_In.
  - intros _. rewrite andb_true_iff.
    destruct (fget ageMin filters) as [lo|], (fget ageMax filters) as [hi|];
      simpl; rewrite ?Z.leb_le; split.
    all: try (intros [H1 H2]; split; intros x; intros [= <-] || intros [=];
              assumption).
    all: intros [H1 H2]; split; auto.
  - intros _. rewrite andb_true_iff.
    assert (Hlo : forall (o : option QueryValue) (mk : QueryValue -> JSDate)
                    (ok : Z -> Z -> bool) (rel : Z -> Z -> Prop),
               (forall a b, ok a b = true <-> rel a b) ->
               opt_bound (fun d => match d with
                                   | Some b => ok b (Sales.date r)
                                   | None => false
                                   end)
                 (v ← o; if truthy v then Some (mk v) else None) = true <->
               (forall v, o = Some v -> truthy v = true ->
                  exists t, mk v = Some t /\ rel t (Sales.date r))).
    { intros o mk ok rel Hok. destruct o as [v|]; simpl.
      - destruct (truthy v) eqn:T; simpl.
        + destruct (mk v) as [t|] eqn:E; split.
          * intros H v' [= <-] _. exists t. split; [exact E|].
            now apply Hok.
          * intros H. destruct (H v eq_refl T) as (t' & E' & Ht).
            rewrite E in E'. injection E' as <-. now apply Hok.
          * discriminate.
          * intros H. destruct (H v eq_refl T) as (t' & E' & _).
            rewrite E in E'. discriminate.
        + split; [|reflexivity]. intros _ v' [= <-]. congruence.
      - split; [|reflexivity]. intros _ v' [=]. }
    rewrite <- (Hlo (fget dateFrom filters) new_Date Z.leb Z.le Z.leb_le).
    rewrite <- (Hlo (fget dateTo filters)
                  (fun v => Date_setHours (new_Date v) 23 59 59 999)
                  (fun b t => Z.leb t b) (fun b t => t <= b)
                  (fun a b => Z.leb_le b a)).
    reflexivity.
  - intros _. rewrite andb_true_iff.
    destruct (fget priceMin filters) as [lo|], (fget priceMax filters) as [hi|];
      simpl; split.
    all: try (intros [H1 H2]; split; intros x; intros [= <-] || intros [=];
              assumption).
    all: intros [H1 H2]; split; auto.
Qed.

Lemma emitted_conjunction search filters r :
  forallb (fun c => matches c r)
    (List.map (condition search filters)
       (List.filter (present search filters) all_filters)) = true <->
  (forall k, present search filters k = true -> holds search filters k r).
Proof.
  rewrite forallb_forall. split.
  - intros H k Hk. apply (condition_holds _ _ _ _ Hk). apply H.
    apply in_map, filter_In. split; [|exact Hk].
    now apply present_listed with search filters.
  - intros H c Hc. apply in_map_iff in Hc as (k & <- & Hk).
    apply filter_In in Hk as [_ Hk].
    apply (condition_holds _ _ _ _ Hk). now apply H.
Qed.

(** C1: the compiled predicate is the conjunction of one condition per
    present filter and of nothing else: the conditions are those of the
    present filters ([present]: a search term with text left after trimming,
    a value list with a value, a range with a bound), each listed once; a
    record matches exactly when it meets what every present filter asks;
    with no condition the predicate matches every record. *)
Theorem buildWhereClause_conjunction (search : option string)
    (filters : option SalesFilters) :
  conditions_of (buildWhereClause search filters) =
    List.map (condition search filters)
      (List.filter (present search filters) all_filters) /\
  List.NoDup all_filters /\
  (forall k, present search filters k = true -> In k all_filters) /\
  (forall r, matches (buildWhereClause search filters) r = true <->
     forall k, present search filters k = true -> holds search filters k r) /\
  (conditions_of (buildWhereClause search filters) = [] ->
     buildWhereClause search filters = W_any /\
     forall r, matches (buildWhereClause search filters) r = true).
Proof.
  pose proof (emitted_conjunction search filters) as Hsem.
  rewrite buildWhereClause_conditions.
  destruct (List.map (condition search filters)
              (List.filter (present search filters) all_filters))
    as [|c cs] eqn:E.
  - repeat split; try reflexivity.
    + apply all_filters_NoDup.
    + apply present_listed.
    + intros _. now apply Hsem.
  - repeat split; try reflexivity; try discriminate.
    + apply all_filters_NoDup.
    + apply present_listed.
    + intros H. now apply Hsem.
    + intros H. now apply Hsem.
Qed.

(** ** The date range *)







(** ** The storage layer: ordering *)

Lemma insert_sorted_perm {A} (leb : A -> A -> bool) x l :
  Permutation (insert_sorted leb x l) (x :: l).
Proof.
  induction l as [|y l IH]; simpl; [reflexivity|].
  destruct (leb x y); [reflexivity|].
  rewrite IH. apply perm_swap.
Qed.

Lemma sort_by_perm {A} (leb : A -> A -> bool) l :
  Permutation (sort_by leb l) l.
Proof.
  induction l as [|x l IH]; simpl; [reflexivity|].
  rewrite insert_sorted_perm. now apply perm_skip.
Qed.

Lemma sort_by_length {A} (leb : A -> A -> bool) l :
  List.length (sort_by leb l) = List.length l.
Proof. apply Permutation_length, sort_by_perm. Qed.

Lemma insert_sorted_sorted {A} (leb : A -> A -> bool) x l :
  (forall a b, leb a b = true \/ leb b a = true) ->
  Sorted (fun a b => leb a b = true) l ->
  Sorted (fun a b => leb a b = true) (insert_sorted leb x l).
Proof.
  intros Htotal Hl. induction Hl as [|y l Hl IH Hy]; simpl.
  - repeat constructor.
  - destruct (leb x y) eqn:E.
    + constructor; [now constructor | now constructor].
    + constructor; [exact IH|].
      destruct Hy as [|z l' Hyz]; simpl.
      * constructor. destruct (Htotal x y); congruence.
      * destruct (leb x z); constructor;
          [destruct (Htotal x y); congruence | exact Hyz].
Qed.

Lemma sort_by_sorted {A} (leb : A -> A -> bool) l :
  (forall a b, leb a b = true \/ leb b a = true) ->
  Sorted (fun a b => leb a b = true) (sort_by leb l).
Proof.
  intros Htotal. induction l as [|x l IH]; simpl; [constructor|].
  now apply insert_sorted_sorted.
Qed.

(** ** Paging *)

Lemma ceil_div_spec a b :
  0 < b ->
  (Qceiling (inject_Z a / inject_Z b) - 1) * b < a <=
  Qceiling (inject_Z a / inject_Z b) * b.
Proof.
  intros Hb. destruct b as [|b|b]; try lia.
  unfold Qceiling, Qfloor, Qdiv, Qmult, Qinv, Qopp, inject_Z; simpl.
  rewrite Z.mul_1_r, Pos.mul_1_l.
  pose proof (Z.div_mod (- a) (Z.pos b) ltac:(lia)) as Hdm.
  pose proof (Z.mod_pos_bound (- a) (Z.pos b) ltac:(lia)) as Hbound.
  nia.
Qed.

Lemma getSales_up rows params :
  getSales (Up rows) params =
  let pageSize := default 10 (pageSize params) in
  let skip := (default 1 (page params) - 1) * pageSize in
  let whereClause := buildWhereClause (search params) (filters params) in
  let matching := List.filter (matches whereClause) rows in
  Ok {| data :=
          List.map mapRecord
            (firstn (Z.to_nat pageSize)
               (skipn (Z.to_nat skip)
                  (sort_by (order_leb (buildOrderBy (sort params))) matching)));
        resp_page := default 1 (page params);
        resp_pageSize := pageSize;
        totalPages :=
          Math_ceil (num_div (Z.of_nat (List.length matching)) pageSize);
        totalRecords := Z.of_nat (List.length matching) |}.
Proof. reflexivity. Qed.

(** C6: a page whose offset reaches or passes the number of matching
    records comes back with an empty record array, not an error, and
    [totalRecords] is still the number of records that match. *)
Theorem getSales_page_beyond_last (rows : list Sales.t)
    (params : SalesQueryParams) :
  1 <= default 10 (pageSize params) ->
  Z.of_nat (List.length
              (List.filter
                 (matches (buildWhereClause (search params) (filters params)))
                 rows))
    <= (default 1 (page params) - 1) * default 10 (pageSize params) ->
  exists response,
    getSales (Up rows) params = Ok response /\
    data response = [] /\
    totalRecords response =
      Z.of_nat (List.length
                  (List.filter
                     (matches (buildWhereClause (search params)
                                 (filters params)))
                     rows)).
Proof.
  intros Hsize Hskip. rewrite getSales_up. cbv zeta.
  eexists. split; [reflexivity|]. simpl. split; [|reflexivity].
  rewrite skipn_all2; [now rewrite firstn_nil|].
  rewrite sort_by_length. lia.
Qed.

(** C7: [totalPages] is the ceiling of [totalRecords / pageSize], that is
    the least number of pages of that size that hold all matching records,
    and it is 0 when nothing matches. *)
Theorem getSales_totalPages (rows : list Sales.t) (params : SalesQueryParams) :
  1 <= default 10 (pageSize params) ->
  exists response pages,
    getSales (Up rows) params = Ok response /\
    totalPages response = Fin (inject_Z pages) /\
    (pages - 1) * resp_pageSize response < totalRecords response
      <= pages * resp_pageSize response /\
    (totalRecords response = 0 -> pages = 0).
Proof.
  intros Hsize. rewrite getSales_up. cbv zeta.
  set (n := default 10 (pageSize params)) in *.
  set (total := Z.of_nat (List.length _)).
  exists {| data := List.map mapRecord
                      (firstn (Z.to_nat n)
                         (skipn (Z.to_nat ((default 1 (page params) - 1) * n))
                            (sort_by (order_leb (buildOrderBy (sort params)))
                               (List.filter
                                  (matches (buildWhereClause (search params)
                                              (filters params))) rows))));
            resp_page := default 1 (page params); resp_pageSize := n;
            totalPages := Math_ceil (num_div total n);
            totalRecords := total |}.
  exists (Qceiling (inject_Z total / inject_Z n)).
  split; [reflexivity|]. simpl.
  pose proof (ceil_div_spec total n ltac:(lia)) as Hceil.
  split; [|split].
  - unfold num_div. destruct (Z.eqb_spec n 0); [lia | reflexivity].
  - exact Hceil.
  - intros H0. simpl in H0.
    set (c := Qceiling (inject_Z total / inject_Z n)) in *.
    assert (0 <= c) by nia. assert (c < 1) by nia. lia.
Qed.

(** ** The filter catalog *)

Lemma Set_values_In x l : In x (Set_values l) <-> In x l.
Proof.
  induction l as [|y l IH]; simpl; [reflexivity|].
  rewrite filter_In, IH. split.
  - intros [H|[H _]]; auto.
  - intros [H|H]; [now left|].
    destruct (String.eqb_spec y x) as [E|E]; [now left|].
    right. split; [exact H | reflexivity].
Qed.

Lemma Set_values_NoDup l : List.NoDup (Set_values l).
Proof.
  induction l as [|y l IH]; simpl; constructor.
  - rewrite filter_In. intros [_ H]. now rewrite String.eqb_refl in H.
  - now apply List.NoDup_filter.
Qed.

Lemma distinct_catalog values : catalog values (distinct values).
Proof.
  unfold catalog, distinct, Array_sort. split; [|split].
  - eapply Permutation_NoDup; [symmetry; apply sort_by_perm|].
    apply Set_values_NoDup.
  - apply sort_by_sorted, String.leb_total.
  - intros v. split.
    + intros H.
      apply (Permutation_in _ (sort_by_perm String.leb _)) in H.
      apply Set_values_In, filter_In in H as [Hin Hne].
      split; [now apply truthy_string_spec | exact Hin].
    + intros [Hne Hin].
      apply (Permutation_in _ (Permutation_sym (sort_by_perm String.leb _))).
      apply Set_values_In, filter_In. split; [exact Hin|].
      now apply truthy_string_spec.
Qed.

(** C9, as the code has it: for each set-membership column the catalog
    holds the distinct non-empty values found in the dataset, each once,
    in ascending order; for the tags the tag lists of all records are
    flattened first. *)
Theorem getFilterOptions_catalog (rows : list Sales.t) :
  exists options,
    getFilterOptions (Up rows) = Ok options /\
    catalog (List.map Sales.customerRegion rows) (customerRegions options) /\
    catalog (List.map Sales.gender rows) (genders options) /\
    catalog (List.map Sales.productCategory rows) (productCategories options) /\
    catalog (List.map Sales.paymentMethod rows) (paymentMethods options) /\
    catalog (List.map Sales.orderStatus rows) (orderStatuses options) /\
    catalog (List.map Sales.deliveryType rows) (deliveryTypes options) /\
    catalog (List.map Sales.brand rows) (brands options) /\
    catalog (List.flat_map Sales.tags rows) (opt_tags options).
Proof.
  eexists. split; [reflexivity|]. simpl.
  repeat (split; [apply distinct_catalog|]). apply distinct_catalog.
Qed.

(** * Further properties *)

(** ** The validator reads eighteen keys and nothing else *)

(** X2: a parameter the validator does not know ([limit], which the client
    sends for the page size, is one) changes nothing in the validated
    request. *)
Theorem validateQueryParams_ignores_unknown_key
    (key : string) (value : QueryValue) (query : gmap string QueryValue) :
  ~ In key known_keys ->
  validateQueryParams (<[key := value]> query) = validateQueryParams query.
Proof.
  clear LocalTZA.
  intros Hkey.
  assert (Hne : forall k, In k known_keys ->
                  (<[key := value]> query) !! k = query !! k).
  { intros k Hk. apply lookup_insert_ne. intros ->. now apply Hkey. }
  unfold validateQueryParams, parseFilters.
  rewrite !Hne by (simpl; tauto). reflexivity.
Qed.

(** ** A value list survives the trip through a comma-separated string *)

Lemma split_comma_free x :
  comma_free x -> JS.split "," x = [x].
Proof.
  clear Date_parse LocalTZA.
  unfold comma_free, chars. induction x as [|c x IH]; simpl; [reflexivity|].
  intros H. destruct (Ascii.eqb_spec c ","%char) as [->|_]; [tauto|].
  rewrite IH by tauto. reflexivity.
Qed.

Lemma split_comma_app x rest :
  comma_free x ->
  JS.split "," (x ++ String "," rest) = x :: JS.split "," rest.
Proof.
  clear Date_parse LocalTZA.
  unfold comma_free, chars. induction x as [|c x IH]; simpl.
  - reflexivity.
  - intros H. destruct (Ascii.eqb_spec c ","%char) as [->|_]; [tauto|].
    rewrite IH by tauto. reflexivity.
Qed.

Lemma split_join values :
  values <> [] -> Forall comma_free values ->
  JS.split "," (JS.join values) = values.
Proof.
  intros Hne Hall. induction Hall as [|x l Hx Hl IH]; [congruence|].
  destruct l as [|y l].
  - simpl. now apply split_comma_free.
  - change (JS.join (x :: y :: l)) with (x ++ String "," (JS.join (y :: l))).
    rewrite split_comma_app by exact Hx. f_equal. now apply IH.
Qed.

(** X3: a non-empty list of values that are trimmed, non-empty and free
    of commas, joined with commas as the client does, is parsed back to the
    same list. *)
Theorem parseArrayParam_join_round_trip (values : list string) :
  values <> [] ->
  Forall clean_token values ->
  Forall comma_free values ->
  parseArrayParam (QStr (JS.join values)) = Ok values.
Proof.
  intros Hne Hclean Hfree.
  rewrite parseArrayParam_string, split_join by assumption.
  f_equal. induction Hclean as [|x l [Hx Ht] Hl IH]; [reflexivity|].
  simpl. rewrite Ht.
  assert (JS.truthy_string x = true) as -> by now apply truthy_string_spec.
  f_equal. destruct l as [|y l]; [reflexivity|].
  apply IH; [discriminate | now inversion Hfree].
Qed.

(** ** sanitizeString *)

Lemma remove_chars_In drop s c :
  In c (chars (remove_chars drop s)) <-> In c (chars s) /\ drop c = false.
Proof.
  clear Date_parse LocalTZA.
  unfold chars. induction s as [|d s IH]; simpl; [tauto|].
  destruct (drop d) eqn:E; simpl; rewrite IH; split.
  - intros [H1 H2]. auto.
  - intros [[->|H1] H2]; [congruence | auto].
  - intros [->|[H1 H2]]; auto.
  - intros [[->|H1] H2]; auto.
Qed.

Lemma remove_chars_length drop s :
  (String.length (remove_chars drop s) <= String.length s)%nat.
Proof.
  induction s as [|d s IH]; simpl; [lia|]. destruct (drop d); simpl; lia.
Qed.

Lemma remove_chars_none drop s :
  (forall c, In c (chars s) -> drop c = false) -> remove_chars drop s = s.
Proof.
  unfold chars. induction s as [|d s IH]; simpl; [reflexivity|].
  intros H. rewrite (H d) by now left. f_equal. apply IH. auto.
Qed.

Lemma trimEnd_length s : (String.length (JS.trimEnd s) <= String.length s)%nat.
Proof.
  induction s as [|c s IH]; simpl; [lia|].
  destruct (JS.trimEnd s); [destruct (JS.is_ws c)|]; simpl in *; lia.
Qed.

Lemma trimStart_length s :
  (String.length (JS.trimStart s) <= String.length s)%nat.
Proof.
  induction s as [|c s IH]; simpl; [lia|]. destruct (JS.is_ws c); simpl; lia.
Qed.

Lemma trimEnd_chars s c : In c (chars (JS.trimEnd s)) -> In c (chars s).
Proof.
  clear Date_parse LocalTZA.
  unfold chars. induction s as [|d s IH]; simpl; [tauto|].
  destruct (JS.trimEnd s) as [|e t].
  - destruct (JS.is_ws d); simpl; tauto.
  - simpl in *. tauto.
Qed.

Lemma trimStart_chars s c : In c (chars (JS.trimStart s)) -> In c (chars s).
Proof.
  clear Date_parse LocalTZA.
  unfold chars. induction s as [|d s IH]; simpl; [tauto|].
  destruct (JS.is_ws d); simpl; tauto.
Qed.

Lemma trim_chars s c : In c (chars (JS.trim s)) -> In c (chars s).
Proof. intros H. now apply trimStart_chars, trimEnd_chars. Qed.

(** X4: the sanitized text holds no angle bracket and no character that
    was not in the input, is never longer than the input, and is the trimmed
    input when that holds no angle bracket. *)
Theorem sanitizeString_spec (input : string) :
  (forall c, In c (chars (sanitizeString input)) ->
     c <> "<"%char /\ c <> ">"%char /\ In c (chars input)) /\
  (String.length (sanitizeString input) <= String.length input)%nat /\
  ((forall c, In c (chars input) -> c <> "<"%char /\ c <> ">"%char) ->
   sanitizeString input = JS.trim input).
Proof.
  unfold sanitizeString. split; [|split].
  - intros c Hc. apply remove_chars_In in Hc as [Hin Hdrop].
    unfold is_angle_bracket in Hdrop. apply orb_false_iff in Hdrop as [H1 H2].
    apply Ascii.eqb_neq in H1, H2. auto using trim_chars.
  - etransitivity; [apply remove_chars_length|].
    unfold JS.trim. etransitivity; [apply trimEnd_length|].
    apply trimStart_length.
  - intros Hclean. apply remove_chars_none. intros c Hc.
    destruct (Hclean c (trim_chars _ _ Hc)) as [H1 H2].
    unfold is_angle_bracket. apply orb_false_iff.
    split; now apply Ascii.eqb_neq.
Qed.

(** ** Filters only narrow *)

Lemma buildWhereClause_matches search filters r :
  matches (buildWhereClause search filters) r = true <->
  (forall k, present search filters k = true -> holds search filters k r).
Proof.
  rewrite <- emitted_conjunction, buildWhereClause_conditions.
  now destruct (List.map _ _).
Qed.

(** X5: a record selected under a search term and filters is also
    selected when the search term is dropped, and when the filters are
    dropped. *)
Theorem buildWhereClause_only_narrows (search : option string)
    (filters : option SalesFilters) (r : Sales.t) :
  matches (buildWhereClause search filters) r = true ->
  matches (buildWhereClause None filters) r = true /\
  matches (buildWhereClause search None) r = true.
Proof.
  rewrite !buildWhereClause_matches. intros H. split; intros k Hk.
  - destruct k as [|column| | | |]; try discriminate.
    + exact (H (K_in column) Hk).
    + exact (H K_tags Hk).
    + exact (H K_age Hk).
    + exact (H K_date Hk).
    + exact (H K_price Hk).
  - destruct k as [|[]| | | |]; try discriminate.
    exact (H K_search Hk).
Qed.

(** X6: with an age range whose lower bound exceeds the upper one, no
    record is selected: the page is empty and [totalRecords] is 0, and the
    request is not refused. *)
Theorem getSales_inverted_age_range (rows : list Sales.t)
    (params : SalesQueryParams) (f : SalesFilters) (lo hi : Z) :
  filters params = Some f ->
  ageMin f = Some lo -> ageMax f = Some hi -> hi < lo ->
  (forall r, matches (buildWhereClause (search params) (Some f)) r = false) /\
  exists response,
    getSales (Up rows) params = Ok response /\
    data response = [] /\ totalRecords response = 0.
Proof.
  intros Hf Hlo Hhi Hinv.
  assert (Hnone : forall r,
             matches (buildWhereClause (search params) (Some f)) r = false).
  { intros r. apply not_true_is_false. rewrite buildWhereClause_matches.
    intros H. specialize (H K_age). simpl in H. rewrite Hlo, Hhi in H.
    destruct (H eq_refl) as [H1 H2].
    specialize (H1 lo eq_refl). specialize (H2 hi eq_refl). lia. }
  split; [exact Hnone|].
  rewrite getSales_up, Hf. cbv zeta.
  assert (Hempty : List.filter
                     (matches (buildWhereClause (search params) (Some f)))
                     rows = []).
  { induction rows as [|r rows IH]; simpl; [reflexivity|].
    now rewrite Hnone. }
  rewrite Hempty. eexists. split; [reflexivity|]. simpl.
  now rewrite skipn_nil, firstn_nil.
Qed.

(** ** The page window *)

Lemma firstn_In_list {A} n (l : list A) x : In x (firstn n l) -> In x l.
Proof.
  intros H. rewrite <- (firstn_skipn n l). apply in_or_app. now left.
Qed.

Lemma skipn_In_list {A} n (l : list A) x : In x (skipn n l) -> In x l.
Proof.
  intros H. rewrite <- (firstn_skipn n l). apply in_or_app. now right.
Qed.

(** X7: a page holds min(page size, matches left from the offset) rows,
    and each of them is the image of a stored record that the compiled
    predicate selects. *)
Theorem getSales_page_window (rows : list Sales.t) (params : SalesQueryParams) :
  1 <= default 1 (page params) ->
  1 <= default 10 (pageSize params) ->
  exists response,
    getSales (Up rows) params = Ok response /\
    Z.of_nat (List.length (data response)) =
      Z.min (resp_pageSize response)
        (Z.max 0 (totalRecords response -
                  (resp_page response - 1) * resp_pageSize response)) /\
    forall row, In row (data response) ->
      exists r, In r rows /\
        matches (buildWhereClause (search params) (filters params)) r = true /\
        row = mapRecord r.
Proof.
  intros Hpage Hsize. rewrite getSales_up. cbv zeta.
  eexists. split; [reflexivity|]. simpl. split.
  - rewrite length_map, length_firstn, length_skipn, sort_by_length.
    set (n := default 10 (pageSize params)) in *.
    set (p := default 1 (page params)) in *.
    assert (0 <= (p - 1) * n) by nia.
    set (skip := (p - 1) * n) in *. lia.
  - intros row Hrow. apply in_map_iff in Hrow as (r & <- & Hr).
    apply firstn_In_list, skipn_In_list in Hr.
    apply (Permutation_in _ (sort_by_perm _ _)) in Hr.
    apply filter_In in Hr as [Hin Hm]. eauto.
Qed.

(** ** The order of a page *)

Lemma Sorted_skipn {A} (R : A -> A -> Prop) k l :
  Sorted R l -> Sorted R (skipn k l).
Proof.
  revert l. induction k as [|k IH]; intros l Hl; [exact Hl|].
  destruct l as [|x l]; [constructor|]. apply IH. now inversion Hl.
Qed.

Lemma Sorted_firstn {A} (R : A -> A -> Prop) k l :
  Sorted R l -> Sorted R (firstn k l).
Proof.
  intros Hl. revert k. induction Hl as [|x l Hl IH Hx]; intros k.
  - rewrite firstn_nil. constructor.
  - destruct k as [|k]; simpl; constructor; [apply IH|].
    destruct Hx as [|y l' Hxy]; [rewrite firstn_nil; constructor|].
    destruct k; simpl; now constructor.
Qed.

Lemma Sorted_map {A B} (R : A -> A -> Prop) (R' : B -> B -> Prop)
    (f : A -> B) l :
  (forall a b, R a b -> R' (f a) (f b)) ->
  Sorted R l -> Sorted R' (List.map f l).
Proof.
  intros Hf Hl. induction Hl as [|x l Hl IH Hx]; simpl; constructor;
    [exact IH|].
  destruct Hx; simpl; constructor. now apply Hf.
Qed.

Lemma order_leb_total orderBy a b :
  order_leb orderBy a b = true \/ order_leb orderBy b a = true.
Proof.
  destruct orderBy as [[] []]; unfold order_leb; simpl;
    try apply String.leb_total; rewrite !Z.leb_le; lia.
Qed.

Lemma order_leb_row_ordered orderBy a b :
  order_leb orderBy a b = true ->
  row_ordered orderBy (mapRecord a) (mapRecord b).
Proof.
  destruct orderBy as [[] []]; unfold order_leb; simpl;
    rewrite ?Z.leb_le; auto;
    intros H; unfold Day, msPerDay; apply Z.div_le_mono; lia.
Qed.

(** X8: the rows of a page stand in the order the sort token asks for:
    by day of the transaction, by quantity or by customer name, ascending
    or descending, and newest first for an absent or unlisted token. *)
Theorem getSales_page_ordered (rows : list Sales.t) (params : SalesQueryParams) :
  exists response,
    getSales (Up rows) params = Ok response /\
    Sorted (row_ordered (buildOrderBy (sort params))) (data response).
Proof.
  rewrite getSales_up. cbv zeta. eexists. split; [reflexivity|]. simpl.
  apply Sorted_map with (R := fun a b =>
    order_leb (buildOrderBy (sort params)) a b = true).
  - apply order_leb_row_ordered.
  - apply Sorted_firstn, Sorted_skipn, sort_by_sorted, order_leb_total.
Qed.

(** ** Statistics *)



(** ** The list endpoint *)

Lemma window_rows_selected w leb n k rows row :
  In row (List.map mapRecord
            (firstn n (skipn k (sort_by leb (List.filter (matches w) rows))))) ->
  exists r, In r rows /\ matches w r = true /\ row = mapRecord r.
Proof.
  intros Hrow. apply in_map_iff in Hrow as (r & <- & Hr).
  apply firstn_In_list, skipn_In_list in Hr.
  apply (Permutation_in _ (sort_by_perm _ _)) in Hr.
  apply filter_In in Hr as [Hin Hm]. eauto.
Qed.

Lemma SalesController_getSales_up rows query params :
  validateQueryParams query = Ok params ->
  exists response,
    getSales (Up rows) params = Ok response /\
    SalesController_getSales (Up rows) query =
    {| status := 200;
       body :=
         SalesBody (data response)
           {| pg_page := resp_page response;
              pg_pageSize := resp_pageSize response;
              pg_totalPages := totalPages response;
              pg_totalRecords := totalRecords response |}
           (filters params) (sort params) (search params) |}.
Proof.
  intros Hv. unfold SalesController_getSales. rewrite Hv.
  eexists. split; [apply getSales_up|]. reflexivity.
Qed.

(** X10: while the store answers, the list endpoint answers every raw
    query with status 200: the page is at least 1, the page size at most
    100, the body holds at most a page size of rows and echoes the
    validated filters, sort token and search term. *)
Theorem SalesController_getSales_always_answers
    (rows : list Sales.t) (query : gmap string QueryValue) :
  exists params response,
    validateQueryParams query = Ok params /\
    getSales (Up rows) params = Ok response /\
    SalesController_getSales (Up rows) query =
    {| status := 200;
       body :=
         SalesBody (data response)
           {| pg_page := resp_page response;
              pg_pageSize := resp_pageSize response;
              pg_totalPages := totalPages response;
              pg_totalRecords := totalRecords response |}
           (filters params) (sort params) (search params) |} /\
    1 <= resp_page response /\
    Z.of_nat (List.length (data response)) <= resp_pageSize response <= 100.
Proof.
  destruct (validateQueryParams_ok query) as (f & _ & Hv).
  destruct (SalesController_getSales_up rows query _ Hv) as (response & Hg & Hc).
  eexists _, response. split; [exact Hv|]. split; [exact Hg|].
  split; [exact Hc|].
  rewrite getSales_up in Hg. cbv zeta in Hg. injection Hg as <-. simpl.
  pose proof (parsePage_positive (query !! "page")).
  pose proof (parsePageSize_range (query !! "pageSize")).
  split; [assumption|].
  rewrite length_map, length_firstn. lia.
Qed.

(** X11: when the store fails, each endpoint answers with status 500 and
    its own fixed message, whatever the query; the message of the store is
    not passed on. *)
Theorem SalesController_storage_failure (query : gmap string QueryValue) :
  SalesController_getSales Down query =
    {| status := 500;
       body := FailureBody "Failed to fetch sales data"
                 "Failed to fetch sales data" |} /\
  SalesController_getFilterOptions Down =
    {| status := 500;
       body := FailureBody "Failed to fetch filter options"
                 "Failed to fetch filter options" |} /\
  SalesController_getStatistics Down =
    {| status := 500;
       body := FailureBody "Failed to fetch statistics"
                 "Failed to fetch statistics" |}.
Proof.
  destruct (validateQueryParams_ok query) as (f & _ & Hv).
  unfold SalesController_getSales. rewrite Hv. repeat split.
Qed.

Lemma row_field_mapRecord column r :
  row_field column (mapRecord r) = Field.get column r.
Proof. now destruct column. Qed.

(** X12: every row the list endpoint returns meets the validated
    filters: its column value is one of the selected values for each
    multi-select filter in use, it shares a tag with the selected tags, its
    age and final amount lie within the retained bounds, and its customer
    name or phone number contains the search term. *)
Theorem getSales_rows_meet_filters
    (rows : list Sales.t) (query : gmap string QueryValue) :
  exists params f response,
    validateQueryParams query = Ok params /\
    filters params = Some f /\
    getSales (Up rows) params = Ok response /\
    forall row, In row (data response) ->
      (forall column values,
         selected column (Some f) = Some values -> values <> [] ->
         In (row_field column row) values) /\
      (forall values, tags f = Some values -> values <> [] ->
         exists tag, In tag (Tags row) /\ In tag values) /\
      (forall lo, ageMin f = Some lo -> lo <= Age row) /\
      (forall hi, ageMax f = Some hi -> Age row <= hi) /\
      (forall lo, priceMin f = Some lo ->
         num_leb lo (Fin (Final_Amount row)) = true) /\
      (forall hi, priceMax f = Some hi ->
         num_leb (Fin (Final_Amount row)) hi = true) /\
      (forall term, search params = Some term -> term <> "" ->
         contains_insensitive (Customer_Name row) term = true \/
         contains_insensitive (Phone_Number row) term = true).
Proof.
  destruct (validateQueryParams_ok query) as (f & _ & Hv).
  eexists _, f, _. split; [exact Hv|]. split; [reflexivity|].
  split; [apply getSales_up|]. cbv zeta. simpl.
  set (term := match query !! "search" with
               | Some (QStr s) =>
                   if JS.truthy_string s then Some (JS.trim s) else None
               | _ => None
               end).
  intros row Hrow.
  apply window_rows_selected in Hrow as (r & _ & Hm & ->).
  rewrite buildWhereClause_matches in Hm.
  repeat split.
  - intros column values Hsel Hne. rewrite row_field_mapRecord.
    assert (Hp : present term (Some f) (K_in column) = true).
    { simpl. rewrite Hsel. now destruct values. }
    exact (Hm _ Hp values Hsel).
  - intros values Htags Hne.
    assert (Hp : present term (Some f) K_tags = true).
    { simpl. rewrite Htags. now destruct values. }
    exact (Hm _ Hp values Htags).
  - intros lo Hlo.
    assert (Hp : present term (Some f) K_age = true)
      by (simpl; now rewrite Hlo).
    now apply (Hm _ Hp).
  - intros hi Hhi.
    assert (Hp : present term (Some f) K_age = true)
      by (simpl; rewrite Hhi; apply orb_true_r).
    now apply (Hm _ Hp).
  - intros lo Hlo.
    assert (Hp : present term (Some f) K_price = true)
      by (simpl; now rewrite Hlo).
    now apply (Hm _ Hp).
  - intros hi Hhi.
    assert (Hp : present term (Some f) K_price = true)
      by (simpl; rewrite Hhi; apply orb_true_r).
    now apply (Hm _ Hp).
  - intros t Ht Hne.
    assert (Htrim : JS.trim t = t).
    { unfold term in Ht. destruct (query !! "search") as [[s|l]|];
        try discriminate.
      destruct (JS.truthy_string s); [|discriminate].
      injection Ht as <-. apply trim_idempotent. }
    assert (Hp : present term (Some f) K_search = true).
    { simpl. rewrite Ht, Htrim. now apply truthy_string_spec. }
    pose proof (Hm _ Hp t Ht) as H. now rewrite Htrim in H.
Qed.

(** ** The client's multi-select toggle *)

(** X13: toggling a value flips its membership and leaves that of every
    other value alone, keeps a selection free of duplicates, and toggling a
    value that was not selected twice gives the selection back. *)
Theorem toggleValue_spec (value : string) (currentValues : list string) :
  (In value (toggleValue value currentValues) <-> ~ In value currentValues) /\
  (forall other, other <> value ->
     (In other (toggleValue value currentValues) <-> In other currentValues)) /\
  (List.NoDup currentValues -> List.NoDup (toggleValue value currentValues)) /\
  (~ In value currentValues ->
   toggleValue value (toggleValue value currentValues) = currentValues).
Proof.
  clear Date_parse LocalTZA.
  unfold toggleValue.
  destruct (mem value currentValues) eqn:E.
  - apply mem_In in E. split; [|split; [|split]].
    + split; [|tauto]. intros H. apply filter_In in H as [_ H].
      now rewrite String.eqb_refl in H.
    + intros other Hother. rewrite filter_In. split; [tauto|].
      intros H. split; [exact H|].
      apply negb_true_iff. now apply String.eqb_neq.
    + apply List.NoDup_filter.
    + tauto.
  - assert (Hno : ~ In value currentValues).
    { intros H. apply mem_In in H. congruence. }
    split; [|split; [|split]].
    + split; [tauto|]. intros _. apply in_or_app. right. now left.
    + intros other Hother. rewrite in_app_iff. simpl. split; [|tauto].
      intros [H|[H|[]]]; [exact H | congruence].
    + intros Hnd. apply NoDup_ListNoDup, NoDup_app.
      split; [now apply NoDup_ListNoDup|].
      split; [|apply NoDup_singleton].
      intros x Hx Hv. apply list_elem_of_In in Hx.
      apply list_elem_of_singleton in Hv. congruence.
    + intros _.
      assert (Hin : mem value (currentValues ++ [value]) = true).
      { apply mem_In, in_or_app. right. now left. }
      rewrite Hin, List.filter_app. simpl. rewrite String.eqb_refl. simpl.
      rewrite app_nil_r. clear Hin E.
      induction currentValues as [|x l IH]; [reflexivity|]. simpl.
      destruct (String.eqb_spec x value) as [->|Hne]; simpl.
      * exfalso. apply Hno. now left.
      * f_equal. apply IH. intros H. apply Hno. now right.
Qed.

(** ** The tags the loader stores *)

Lemma split_on_no_separator is_sep s x c :
  In x (split_on is_sep s) -> In c (chars x) -> is_sep c = false.
Proof.
  unfold chars. revert x. induction s as [|d s IH]; simpl; intros x Hx Hc.
  - destruct Hx as [<-|[]]. destruct Hc.
  - destruct (is_sep d) eqn:E.
    + destruct Hx as [<-|Hx]; [destruct Hc | eauto].
    + destruct (split_on is_sep s) as [|h t] eqn:Es.
      * destruct Hx as [<-|[]]. destruct Hc as [<-|[]]. exact E.
      * destruct Hx as [<-|Hx].
        -- destruct Hc as [<-|Hc]; [exact E|].
           apply (IH h); [now left | exact Hc].
        -- apply (IH x); [now right | exact Hc].
Qed.

Lemma parseArrayParam_single x :
  clean_token x -> comma_free x -> parseArrayParam (QStr x) = Ok [x].
Proof.
  intros [Hne Htrim] Hfree.
  rewrite parseArrayParam_string, split_comma_free by exact Hfree.
  simpl. rewrite Htrim.
  now assert (JS.truthy_string x = true) as -> by now apply truthy_string_spec.
Qed.

(** X14: every tag the loader stores is trimmed, not empty and holds none
    of the separators [,], [;] and [|]; so a [tags] filter naming it alone
    is validated to that one tag. *)
Theorem seed_tags_selectable (cell : option string) (tag : string) :
  In tag (seed_tags cell) ->
  clean_token tag /\
  (forall c, In c (chars tag) -> is_tag_separator c = false) /\
  parseArrayParam (QStr tag) = Ok [tag].
Proof.
  unfold seed_tags. destruct cell as [text|]; [|intros []].
  destruct (JS.truthy_string text); [|intros []].
  intros H. apply filter_In in H as [Hin Hlen].
  apply in_map_iff in Hin as (x & <- & Hx).
  assert (Hclean : clean_token (JS.trim x)).
  { split; [|apply trim_idempotent].
    intros E. rewrite E in Hlen. discriminate. }
  assert (Hsep : forall c, In c (chars (JS.trim x)) ->
                           is_tag_separator c = false).
  { intros c Hc. apply (split_on_no_separator _ _ _ _ Hx).
    now apply trim_chars. }
  split; [exact Hclean|]. split; [exact Hsep|].
  apply parseArrayParam_single; [exact Hclean|].
  intros Hcomma. apply Hsep in Hcomma. discriminate.
Qed.

(** ** What the client sends and what the validator reads *)

Lemma take_digits_uint d :
  take_digits (NilEmpty.string_of_uint d) = (digits_of_uint d, "").
Proof.
  induction d; simpl NilEmpty.string_of_uint; simpl digits_of_uint;
    [reflexivity|..];
    (unfold take_digits; fold take_digits; rewrite IHd; reflexivity).
Qed.

Lemma of_uint_acc_value d acc :
  Z.pos (Pos.of_uint_acc d acc) =
  fold_left (fun a x => 10 * a + x) (digits_of_uint d) (Z.pos acc).
Proof.
  revert acc. induction d; intros acc; simpl; [reflexivity|..];
    rewrite IHd; f_equal; lia.
Qed.

Lemma of_uint_value d :
  Z.of_N (Pos.of_uint d) = decimal_value (digits_of_uint d).
Proof.
  unfold decimal_value.
  induction d; simpl; [reflexivity | exact IHd |..];
    apply of_uint_acc_value.
Qed.

Lemma digit_is_plain c d s :
  digit_of c = Some d ->
  JS.is_ws c = false /\ take_sign (String c s) = (false, String c s).
Proof.
  destruct c as [[] [] [] [] [] [] [] []]; vm_compute; intros H;
    try discriminate H; split; reflexivity.
Qed.

Lemma trimStart_minus s : JS.trimStart (String "-" s) = String "-" s.
Proof. reflexivity. Qed.

Lemma parseInt_leading_digits s d ds rest :
  take_digits s = (d :: ds, rest) ->
  parseInt s = Some (decimal_value (d :: ds)) /\
  parseInt (String "-" s) = Some (- decimal_value (d :: ds)).
Proof.
  intros H. pose proof H as H0.
  destruct s as [|c s']; [discriminate|]. simpl take_digits in H.
  destruct (digit_of c) as [x|] eqn:Ec; [|discriminate].
  destruct (digit_is_plain c x s' Ec) as [Hws Hsign]. split.
  - unfold parseInt. simpl JS.trimStart. rewrite Hws, Hsign. cbv iota beta.
    rewrite H0. reflexivity.
  - unfold parseInt. rewrite trimStart_minus.
    change (take_sign (String "-" (String c s'))) with (true, String c s').
    cbv iota beta. rewrite H0. reflexivity.
Qed.

Lemma parseInt_Number_toString n : parseInt (Number_toString n) = Some n.
Proof.
  unfold Number_toString. destruct n as [|p|p]; [reflexivity|..];
    simpl Z.to_int; simpl NilZero.string_of_int; unfold NilZero.string_of_uint;
    pose proof (Unsigned.to_uint_nonnil p) as Hnil;
    pose proof (of_uint_value (Pos.to_uint p)) as Hval;
    rewrite Unsigned.of_to in Hval;
    pose proof (take_digits_uint (Pos.to_uint p)) as Htake;
    destruct (digits_of_uint (Pos.to_uint p)) as [|x ds] eqn:Ed.
  1, 3: destruct (Pos.to_uint p); simpl in Ed; congruence.
  - destruct (parseInt_leading_digits _ _ _ _ Htake) as [Hp _].
    destruct (Pos.to_uint p); [congruence|..]; rewrite Hp, <- Hval;
      reflexivity.
  - destruct (parseInt_leading_digits _ _ _ _ Htake) as [_ Hp].
    destruct (Pos.to_uint p); [congruence|..]; rewrite Hp, <- Hval;
      reflexivity.
Qed.

Lemma Number_toString_truthy n : JS.truthy_string (Number_toString n) = true.
Proof.
  pose proof (parseInt_Number_toString n) as H.
  destruct (Number_toString n); [discriminate H | reflexivity].
Qed.


Lemma lookup_append_eq test name value (params : gmap string QueryValue) :
  append_if test name value params !! name =
  if test then Some (QStr value) else params !! name.
Proof. unfold append_if. destruct test; [apply lookup_insert_eq | reflexivity]. Qed.

Lemma lookup_append_ne test name value (params : gmap string QueryValue) key :
  name <> key -> append_if test name value params !! key = params !! key.
Proof.
  intros Hne. unfold append_if. destruct test; [|reflexivity].
  now apply lookup_insert_ne.
Qed.

Ltac lookup_request :=
  unfold request_params; cbv zeta;
  repeat first
    [ rewrite lookup_append_eq
    | rewrite lookup_append_ne by discriminate
    | rewrite lookup_insert_eq
    | rewrite lookup_insert_ne by discriminate
    | rewrite lookup_empty ].

Lemma join_truthy values :
  values <> [] -> Forall clean_token values ->
  JS.truthy_string (JS.join values) = true.
Proof.
  intros Hne Hclean. destruct Hclean as [|x l [Hx _] _]; [congruence|].
  destruct x as [|c x]; [congruence|]. now destruct l.
Qed.

Lemma parseArrayFilter_sent values :
  sendable values ->
  parseArrayFilter
    (if has_items values then Some (QStr (JS.join values)) else None) =
  Ok (as_filter values).
Proof.
  intros [Hclean Hfree]. destruct values as [|x l]; [reflexivity|].
  change (has_items (x :: l)) with true. cbv iota.
  unfold parseArrayFilter, if_truthy, truthy.
  rewrite join_truthy by (assumption || discriminate).
  rewrite parseArrayParam_string, split_join by (assumption || discriminate).
  assert (E : List.filter JS.truthy_string (List.map JS.trim (x :: l)) = x :: l).
  { clear Hfree. induction Hclean as [|y k [Hy Ht] Hk IH]; [reflexivity|].
    simpl. rewrite Ht.
    assert (JS.truthy_string y = true) as -> by now apply truthy_string_spec.
    now f_equal. }
  now rewrite E.
Qed.

(** X16: the request the client builds is validated to what the client
    shows: its page (when at least 1), its sort token, its trimmed search
    term, and each selected value list (when its values are trimmed, not
    empty and free of commas); the page size is 10 because [limit] is not a
    key the validator reads, and order status, delivery type, brand and
    price are never constrained. *)
Theorem client_request_validated (st : ClientState) :
  1 <= currentPage st < 10 ^ 21 ->
  exists params f,
    validateQueryParams (request_params st) = Ok params /\
    filters params = Some f /\
    page params = Some (currentPage st) /\
    pageSize params = Some 10 /\
    sort params =
      (if JS.truthy_string (sortBy st) then Some (sortBy st) else None) /\
    search params =
      (if JS.truthy_string (searchTerm st)
       then Some (JS.trim (searchTerm st)) else None) /\
    orderStatus f = None /\ deliveryType f = None /\ brand f = None /\
    priceMin f = None /\ priceMax f = None /\
    (sendable (sel_customerRegions (selectedFilters st)) ->
     customerRegion f = as_filter (sel_customerRegions (selectedFilters st))) /\
    (sendable (sel_gender (selectedFilters st)) ->
     gender f = as_filter (sel_gender (selectedFilters st))) /\
    (sendable (sel_productCategories (selectedFilters st)) ->
     productCategory f =
       as_filter (sel_productCategories (selectedFilters st))) /\
    (sendable (sel_tags (selectedFilters st)) ->
     tags f = as_filter (sel_tags (selectedFilters st))) /\
    (sendable (sel_paymentMethods (selectedFilters st)) ->
     paymentMethod f = as_filter (sel_paymentMethods (selectedFilters st))).
Proof.
  intros Hpage.
  destruct (validateQueryParams_ok (request_params st)) as (f & _ & Hv).
  destruct (parseFilters_ok (request_params st))
    as (f' & Hf' & _ & _ & _ & _ & P1 & P2 & R & G & C & T & M & O & D & B).
  assert (f' = f) as ->.
  { unfold validateQueryParams in Hv. rewrite parseSearch_ok, Hf' in Hv.
    now injection Hv. }
  eexists _, f. split; [exact Hv|]. simpl.
  split; [reflexivity|].
  revert P1 P2 R G C T M O D B. lookup_request.
  intros P1 P2 R G C T M O D B.
  split.
  { pose proof (printed_page_lemma := parseInt_Number_toString (currentPage st)).
    rewrite parsePage_spec. unfold spec_page, parsed_int. simpl.
    rewrite printed_page_lemma. destruct (Z.leb_spec (currentPage st) 0);
      [lia | reflexivity]. }
  split; [reflexivity|].
  split.
  { unfold parseSort, if_truthy. simpl.
    now destruct (JS.truthy_string (sortBy st)). }
  split.
  { destruct (searchTerm st) as [|c s]; reflexivity. }
  split; [now injection O|]. split; [now injection D|].
  split; [now injection B|].
  split; [exact P1|]. split; [exact P2|].
  repeat split; intros Hs; apply parseArrayFilter_sent in Hs; congruence.
Qed.

End Program.

(** * The properties at work on sample data

    The host below parses the interchange format and keeps UTC time. *)

Example validateQueryParams_bad_numbers :
  validateQueryParams Date_parse_iso query_bad_numbers =
  Ok {| page := Some 1; pageSize := Some 10; search := None; sort := None;
        filters := Some (Build_SalesFilters None None None None None None
                           None None None None None None None
                           (Some (Fin 99.5))) |}.
Proof. vm_compute. reflexivity. Qed.

Example validateQueryParams_repeated_region :
  exists params f,
    validateQueryParams Date_parse_iso query_repeated_region = Ok params /\
    filters params = Some f /\
    customerRegion f = Some [" North "; "South"].
Proof. eexists _, _. vm_compute. repeat split. Qed.

Example buildWhereClause_no_filters :
  buildWhereClause Date_parse_iso LocalTZA_utc (Some "  ") (Some no_filters)
  = W_any.
Proof. reflexivity. Qed.



(** On a host at UTC+05:30 the upper bound for [dateTo=2024-01-01] is
    18:29:59.999 UTC of that day: the end of the host's local day. *)
Example date_range_on_ist_host :
  buildWhereClause Date_parse_iso LocalTZA_ist None
    (Some (date_filters None (Some (QStr "2024-01-01")))) =
  W_AND [W_date None (Some (Some 1704133799999))] /\
  matches
    (buildWhereClause Date_parse_iso LocalTZA_ist None
       (Some (date_filters None (Some (QStr "2024-01-01")))))
    (sale_at 1704153599000) = false.
Proof. vm_compute. split; reflexivity. Qed.

(** C3 fails as stated at [?search=%20]: nothing is left of the raw value
    after trimming, yet the validated search term is present (and empty). *)
Lemma whitespace_search_stays_present :
  JS.trim " " = "" /\
  exists params,
    validateQueryParams Date_parse_iso query_blank_search = Ok params /\
    search params = Some "".
Proof. split; [reflexivity|]. eexists. vm_compute. split; reflexivity. Qed.

(** C6 on two records, page 3 of size 10. *)
Lemma getSales_page_beyond_last_witness :
  exists response,
    getSales Date_parse_iso LocalTZA_utc (Up [sale_at 0; sale_blank])
      (params_of 3 10) = Ok response /\
    data response = [] /\
    totalRecords response = 2.
Proof.
  apply (getSales_page_beyond_last Date_parse_iso LocalTZA_utc
           [sale_at 0; sale_blank] (params_of 3 10)).
  - simpl. lia.
  - vm_compute. discriminate.
Defined.

(** C7 on three records, pages of size 2: two pages. *)
Lemma getSales_totalPages_witness :
  exists response pages,
    getSales Date_parse_iso LocalTZA_utc (Up [sale_at 0; sale_blank; sale_at 1])
      (params_of 1 2) = Ok response /\
    totalPages response = Fin (inject_Z pages) /\
    (pages - 1) * resp_pageSize response < totalRecords response
      <= pages * resp_pageSize response /\
    (totalRecords response = 0 -> pages = 0).
Proof.
  apply (getSales_totalPages Date_parse_iso LocalTZA_utc
           [sale_at 0; sale_blank; sale_at 1] (params_of 1 2)).
  simpl. lia.
Defined.

Example getSales_totalPages_value :
  exists response,
    getSales Date_parse_iso LocalTZA_utc (Up [sale_at 0; sale_blank; sale_at 1])
      (params_of 1 2) = Ok response /\
    totalPages response = Fin 2 /\ totalRecords response = 3 /\
    List.length (data response) = 2%nat.
Proof. eexists. vm_compute. repeat split. Qed.

(** C9 fails as stated on a dataset with an empty cell: the empty gender
    is a value of the dataset, and the catalog leaves it out. *)
Lemma blank_value_left_out_of_catalog :
  In "" (List.map Sales.gender [sale_blank; sale_at 0]) /\
  exists options,
    getFilterOptions (Up [sale_blank; sale_at 0]) = Ok options /\
    genders options = ["Female"].
Proof. split; [now left|]. eexists. vm_compute. split; reflexivity. Qed.

(** * The further properties on sample data *)

(** X2 with the client's [limit] parameter. *)
Lemma validateQueryParams_ignores_unknown_key_witness :
  validateQueryParams Date_parse_iso
    (<["limit" := QStr "50"]> query_bad_numbers) =
  validateQueryParams Date_parse_iso query_bad_numbers.
Proof.
  apply (validateQueryParams_ignores_unknown_key Date_parse_iso "limit"
           (QStr "50") query_bad_numbers).
  simpl. intuition discriminate.
Defined.

(** X3 with two regions, one of them with a space inside. *)
Lemma parseArrayParam_join_round_trip_witness :
  parseArrayParam (QStr (JS.join ["North"; "South East"])) =
  Ok ["North"; "South East"].
Proof.
  apply (parseArrayParam_join_round_trip ["North"; "South East"]).
  - discriminate.
  - repeat constructor; discriminate.
  - repeat constructor; vm_compute; intuition discriminate.
Defined.

(** X5 with a search for "asha" among the women. *)
Lemma buildWhereClause_only_narrows_witness :
  matches
    (buildWhereClause Date_parse_iso LocalTZA_utc None (Some filters_female))
    (sale_at 0) = true /\
  matches (buildWhereClause Date_parse_iso LocalTZA_utc (Some "asha") None)
    (sale_at 0) = true.
Proof.
  apply (buildWhereClause_only_narrows Date_parse_iso LocalTZA_utc
           (Some "asha") (Some filters_female) (sale_at 0)).
  reflexivity.
Defined.

(** X6 with ages from 40 down to 30. *)
Lemma getSales_inverted_age_range_witness :
  (forall r,
     matches
       (buildWhereClause Date_parse_iso LocalTZA_utc None
          (Some filters_inverted_age)) r = false) /\
  exists response,
    getSales Date_parse_iso LocalTZA_utc (Up [sale_at 0; sale_blank])
      {| page := Some 1; pageSize := Some 10; search := None; sort := None;
         filters := Some filters_inverted_age |} = Ok response /\
    data response = [] /\ totalRecords response = 0.
Proof.
  apply (getSales_inverted_age_range Date_parse_iso LocalTZA_utc
           [sale_at 0; sale_blank]
           {| page := Some 1; pageSize := Some 10; search := None;
              sort := None; filters := Some filters_inverted_age |}
           filters_inverted_age 40 30); reflexivity.
Defined.

(** X7 on three records, page 2 of size 2: one row is left. *)
Lemma getSales_page_window_witness :
  exists response,
    getSales Date_parse_iso LocalTZA_utc
      (Up [sale_at 0; sale_blank; sale_at 1]) (params_of 2 2) = Ok response /\
    Z.of_nat (List.length (data response)) =
      Z.min (resp_pageSize response)
        (Z.max 0 (totalRecords response -
                  (resp_page response - 1) * resp_pageSize response)) /\
    forall row, In row (data response) ->
      exists r, In r [sale_at 0; sale_blank; sale_at 1] /\
        matches
          (buildWhereClause Date_parse_iso LocalTZA_utc
             (search (params_of 2 2)) (filters (params_of 2 2))) r = true /\
        row = mapRecord r.
Proof.
  apply (getSales_page_window Date_parse_iso LocalTZA_utc
           [sale_at 0; sale_blank; sale_at 1] (params_of 2 2));
    simpl; lia.
Defined.

(** X14 on a [Tags] cell with all three separators. *)
Lemma seed_tags_selectable_witness :
  clean_token "cotton" /\
  (forall c, In c (chars "cotton") -> is_tag_separator c = false) /\
  parseArrayParam (QStr "cotton") = Ok ["cotton"].
Proof.
  apply (seed_tags_selectable (Some " sale ; cotton|,new") "cotton").
  vm_compute. tauto.
Defined.

Example seed_tags_sample :
  seed_tags (Some " sale ; cotton|,new") = ["sale"; "cotton"; "new"] /\
  seed_tags (Some "") = [] /\ seed_tags None = [].
Proof. repeat split. Qed.

(** X16 for a client on page 3 with two regions and a tag selected. *)
Lemma client_request_validated_witness :
  exists params f,
    validateQueryParams Date_parse_iso (request_params client_sample)
      = Ok params /\
    filters params = Some f /\
    page params = Some 3 /\
    pageSize params = Some 10 /\
    sort params = Some "name-asc" /\
    search params = Some "asha" /\
    orderStatus f = None /\ deliveryType f = None /\ brand f = None /\
    priceMin f = None /\ priceMax f = None /\
    (sendable ["North"; "South"] ->
     customerRegion f = Some ["North"; "South"]) /\
    (sendable [] -> gender f = None) /\
    (sendable [] -> productCategory f = None) /\
    (sendable ["sale"] -> tags f = Some ["sale"]) /\
    (sendable [] -> paymentMethod f = None).
Proof.
  apply (client_request_validated Date_parse_iso client_sample).
  simpl. lia.
Defined.


Example sanitizeString_sample :
  sanitizeString "  <b>Asha</b> " = "bAsha/b" /\
  sanitizeString " < a" = " a".
Proof. split; reflexivity. Qed.
